(** * consensusAV: crowd synthesis and mixing (generate_audio.py)

    A shallow embedding of [generate_audio.py].  The program drives the
    pydub [AudioSegment] type; the part of pydub it calls is modelled in
    [Module Pydub].  Modelling conventions:

    - a buffer is the list of its PCM sample values, 16-bit integers,
      one sample per time unit (pydub measures [len] and
      [silent(duration=...)] in milliseconds), all buffers sharing one
      rate and one channel;
    - decibel quantities and gain factors are real numbers (Python
      floats are read as reals); a sample times a factor is clipped and
      rounded down to an integer as audioop.mul does;
    - a float that enters an integer count is finite, infinite or not a
      number, and a product beyond the range of a double is infinite;
    - [random.randint] reads an explicit random source. *)

From Stdlib Require Import Reals ZArith QArith Qround Qabs List String Ascii Bool Arith Lia Lra.
From Stdlib Require Import Zfloor DecimalString.
From Stdlib Require Lqa.
From Stdlib Require DecimalNat DecimalFacts.
Import ListNotations.

Local Open Scope R_scope.

(* ================================================================== *)
(** ** Decibels *)

Module Decibel.

Definition log10 (x : R) : R := Rlog 10 x.

(** pydub.utils.db_to_float (amplitude ratio): [10 ** (db / 20)]. *)
Definition db_to_float (db : R) : R := Rpower 10 (db / 20).

(** A level in dB; [NegInf] is Python's [-float('inf')]. *)
Inductive level : Type :=
| NegInf : level
| Fin : R -> level.

(** pydub.utils.ratio_to_db (amplitude ratio): [-inf] at 0, else
    [20 * log10 ratio]. *)
Definition ratio_to_db (ratio : R) : level :=
  if Req_dec_T ratio 0 then NegInf else Fin (20 * log10 ratio).

(** [l > x] for a finite [x], as Python compares floats. *)
Definition exceeds (l : level) (x : R) : Prop :=
  match l with
  | NegInf => False
  | Fin r => r > x
  end.

Definition at_most (l : level) (x : R) : Prop :=
  match l with
  | NegInf => True
  | Fin r => r <= x
  end.

Definition exceeds_dec (l : level) (x : R) : {exceeds l x} + {~ exceeds l x} :=
  match l with
  | NegInf => right (fun f : False => f)
  | Fin r => Rgt_dec r x
  end.

End Decibel.

(* ================================================================== *)
(** ** The pydub operations the program calls *)

Module Pydub.

Import Decibel.

Definition AudioSegment : Type := list Z.

(** [len(seg)]: the duration in time units. *)
Definition len (seg : AudioSegment) : nat := List.length seg.

(** [AudioSegment.silent(duration=d)]. *)
Definition silent (duration : nat) : AudioSegment := repeat 0%Z duration.

(** [seg1 + seg2] on two segments: concatenation. *)
Definition append (seg1 seg2 : AudioSegment) : AudioSegment := (seg1 ++ seg2)%list.

(** 16-bit samples. *)
Definition maxval : Z := 32767.
Definition minval : Z := -32768.
Definition max_possible_amplitude : Z := 32768.

(** audioop.add on 16-bit samples: the integer sum, cut to the range. *)
Definition clip (x : Z) : Z :=
  if (x >? maxval)%Z then maxval
  else if (x <? minval)%Z then minval
  else x.

(** audioop's [fbound] on a double: cut to the range (everything below
    [minval + 1] becomes [minval]), then rounded towards minus
    infinity. *)
Definition fbound (val : R) : Z :=
  Zfloor (if Rlt_dec (IZR maxval) val then IZR maxval
          else if Rlt_dec val (IZR minval + 1) then IZR minval
          else val).

(** [seg1.overlay(seg2)] at position 0, played once: [seg2] is cut to
    the length of [seg1], added sample by sample (audioop.add, which
    clips), and what is left of [seg1] follows unchanged. *)
Fixpoint overlay (seg1 seg2 : AudioSegment) : AudioSegment :=
  match seg1, seg2 with
  | x :: s1, y :: s2 => clip (x + y) :: overlay s1 s2
  | _, [] => seg1
  | [], _ => []
  end.

(** [seg + db] and [seg - db] on a segment and a number:
    [apply_gain], audioop.mul by [db_to_float db]. *)
Definition apply_gain (seg : AudioSegment) (volume_change : R) : AudioSegment :=
  map (fun s => fbound (IZR s * db_to_float volume_change)) seg.

(** [seg.max]: the largest absolute sample value (audioop.max). *)
Definition max (seg : AudioSegment) : Z :=
  fold_right (fun s m => Z.max (Z.abs s) m) 0%Z seg.

(** [seg.max_dBFS]. *)
Definition max_dBFS (seg : AudioSegment) : level :=
  ratio_to_db (IZR (max seg) / IZR max_possible_amplitude).

(** [apply_gain] at a level: at minus infinity the factor
    [10 ** (db / 20)] is 0. *)
Definition apply_gain_level (seg : AudioSegment) (volume_change : level)
  : AudioSegment :=
  match volume_change with
  | NegInf => map (fun s => fbound (IZR s * 0)) seg
  | Fin db => apply_gain seg db
  end.

(** pydub.effects.normalize. *)
Definition normalize (seg : AudioSegment) (headroom : R) : AudioSegment :=
  let peak_sample_val := max seg in
  if (peak_sample_val =? 0)%Z then seg
  else
    let target_peak :=
      IZR max_possible_amplitude * db_to_float (- headroom) in
    let needed_boost := ratio_to_db (target_peak / IZR peak_sample_val) in
    apply_gain_level seg needed_boost.

End Pydub.

(* ================================================================== *)
(** ** The random source *)

Module Random.

(** The state of Python's [random] module: the values it will
    deliver ([tape]) and how many were consumed ([pos]). *)
Record State : Type := mkState { tape : nat -> nat; pos : nat }.

(** Computations that draw random numbers. *)
Definition Rand (A : Type) : Type := State -> A * State.

Definition ret {A} (a : A) : Rand A := fun g => (a, g).

Definition bind {A B} (m : Rand A) (k : A -> Rand B) : Rand B :=
  fun g => let (a, g') := m g in k a g'.

(** [random.randint(a, b)]: an integer N with [a <= N <= b]. *)
Definition randint (a b : nat) : Rand nat :=
  fun g => ((a + tape g (pos g) mod (b - a + 1))%nat,
            mkState (tape g) (S (pos g))).

(** A [for] loop over a list threading an accumulator. *)
Fixpoint for_each {A X} (xs : list X) (body : X -> A -> Rand A) (acc : A)
  : Rand A :=
  match xs with
  | [] => ret acc
  | x :: xs' => bind (body x acc) (for_each xs' body)
  end.

End Random.

Notation "x <- m ;; k" := (Random.bind m (fun x => k))
  (at level 61, m at next level, right associativity).

(* ================================================================== *)
(** ** generate_audio.py: the crowd synthesizer *)

Import Decibel Pydub Random.

(** [range(a, b)]. *)
Definition range (a b : nat) : list nat := seq a (b - a).

(** add_slight_variation (lines 53-60). *)
Definition add_slight_variation (audio : AudioSegment) (variation_ms : nat)
  : Rand AudioSegment :=
  padding <- randint 0 variation_ms ;;
  let silence := silent padding in
  ret (append silence audio).

(** [add_slight_variation(base_audio, 30) if add_variation else base_audio]. *)
Definition varied (base_audio : AudioSegment) (add_variation : bool)
  : Rand AudioSegment :=
  if add_variation then add_slight_variation base_audio 30 else ret base_audio.

(** [int(x)] on a float that is not negative. *)
Definition int (x : R) : nat := Z.to_nat (Zfloor x).

(** [min(int(num_copies ** 0.5), 50)] (line 81). *)
Definition num_layers (num_copies : nat) : nat :=
  Nat.min (int (sqrt (INR num_copies))) 50.

(** [10 * math.log10(num_copies)] (line 86). *)
Definition db_increase (num_copies : nat) : R := 10 * log10 (INR num_copies).

(** The attenuation of a layer, [3 * math.log10(num_layers)] (line 96). *)
Definition layer_attenuation (layers : nat) : R := 3 * log10 (INR layers).

(** create_crowd_audio (lines 62-102).  [num_copies] is a natural
    number: callers pass a count that is not negative (the pipeline
    calls it under the test [count > 0]). *)
Definition create_crowd_audio (base_audio : AudioSegment) (num_copies : nat)
                              (add_variation : bool) : Rand AudioSegment :=
  match num_copies with
  | O => ret (silent (len base_audio))
  | 1%nat => varied base_audio add_variation
  | _ =>
      let layers := num_layers num_copies in
      let db := db_increase num_copies in
      result <- varied base_audio add_variation ;;
      result <- for_each (range 1 layers)
                  (fun _ result =>
                     copy <- varied base_audio add_variation ;;
                     let copy := apply_gain copy (- layer_attenuation layers) in
                     ret (overlay result copy))
                  result ;;
      ret (apply_gain result db)
  end.

(* ================================================================== *)
(** ** generate_audio.py: the crowd mixer *)

(** mix_agree_disagree_crowds (lines 104-125). *)
Definition mix_agree_disagree_crowds (agree_audio disagree_audio : AudioSegment)
  : AudioSegment :=
  let max_length := Nat.max (len agree_audio) (len disagree_audio) in
  let agree_audio :=
    if (len agree_audio <? max_length)%nat
    then append agree_audio (silent (max_length - len agree_audio))
    else agree_audio in
  let disagree_audio :=
    if (len disagree_audio <? max_length)%nat
    then append disagree_audio (silent (max_length - len disagree_audio))
    else disagree_audio in
  let mixed := overlay agree_audio disagree_audio in
  if exceeds_dec (max_dBFS mixed) (-1) then normalize mixed 1 else mixed.

(* ================================================================== *)
(** ** generate_audio.py: the per-issue pipeline and the batch driver *)

(** A row of the CSV file, as [csv.DictReader] delivers it. *)
Record Row : Type := mkRow {
  issue : string;
  statement : string;
  scientific_consensus : string;
  public_agreement : string
}.

(** The exceptions the modelled code can raise. *)
Inductive exn : Type :=
| ValueError : exn
| OverflowError : exn.

(** A Python float as far as the counts depend on it: a finite number,
    an infinity with its sign, or not a number. *)
Inductive pyfloat : Type :=
| Finite : Q -> pyfloat
| Infinity : bool -> pyfloat
| NaN : pyfloat.

(** The least magnitude that a double cannot hold: what reaches it
    becomes an infinity. *)
Definition overflow_threshold : Q := inject_Z (2 ^ 1024 - 2 ^ 970).

(** A number as a double. *)
Definition to_double (q : Q) : pyfloat :=
  if Qle_bool overflow_threshold (Qabs q)
  then Infinity (negb (Qle_bool 0 q))
  else Finite q.

(** [n * x] for an integer [n] and a float [x]. *)
Definition int_times (n : Z) (x : pyfloat) : pyfloat :=
  match x with
  | Finite q => to_double (inject_Z n * q)
  | Infinity negative =>
      if (n =? 0)%Z then NaN else Infinity (xorb negative (n <? 0)%Z)
  | NaN => NaN
  end.

(** [x / 100] for a float [x]. *)
Definition over_100 (x : pyfloat) : pyfloat :=
  match x with
  | Finite q => Finite (q / 100)
  | Infinity negative => Infinity negative
  | NaN => NaN
  end.

(** The names of the files written for one issue,
    [f"{AUDIO_DIR}/{index:02d}_{suffix}.mp3"]. *)
Definition AUDIO_DIR : string := "audio".
Definition TEMP_DIR : string := "audio/temp".

Definition format_02d (index : nat) : string :=
  let digits := NilZero.string_of_uint (Nat.to_uint index) in
  if (index <? 10)%nat then String "0" digits else digits.

Definition output_file (index : nat) (suffix : string) : string :=
  (AUDIO_DIR ++ "/" ++ format_02d index ++ "_" ++ suffix ++ ".mp3")%string.

(** [s.replace(old, new)] on single characters. *)
Fixpoint replace (old new : ascii) (s : string) : string :=
  match s with
  | EmptyString => EmptyString
  | String c s' =>
      String (if Ascii.eqb c old then new else c) (replace old new s')
  end.

(** What one run has done so far: the random source, the files
    exported (latest last), and, as a record for the proofs, the
    arguments of every call of [create_crowd_audio]. *)
Record World : Type := mkWorld {
  random : Random.State;
  exported : list (string * AudioSegment);
  synthesized : list (AudioSegment * nat)
}.

Inductive Outcome (A : Type) : Type :=
| Raise : exn -> World -> Outcome A
| Return : A -> World -> Outcome A.
Arguments Raise {A} _ _.
Arguments Return {A} _ _.

Definition Pipe (A : Type) : Type := World -> Outcome A.

Definition pure {A} (a : A) : Pipe A := fun w => Return a w.

Definition and_then {A B} (m : Pipe A) (k : A -> Pipe B) : Pipe B :=
  fun w =>
    match m w with
    | Raise e w' => Raise e w'
    | Return a w' => k a w'
    end.

Notation "x <-- m ;;; k" := (and_then m (fun x => k))
  (at level 61, m at next level, right associativity).
Notation "m ;;; k" := (and_then m (fun _ => k))
  (at level 61, right associativity).

Definition raise {A} (e : exn) : Pipe A := fun w => Raise e w.

(** [segment.export(file, format='mp3')]. *)
Definition export (file : string) (segment : AudioSegment) : Pipe unit :=
  fun w => Return tt (mkWorld (random w) (exported w ++ [(file, segment)])
                              (synthesized w)).

(** A call [create_crowd_audio(base, count, add_variation=True)]. *)
Definition synthesize (base : AudioSegment) (count : nat) : Pipe AudioSegment :=
  fun w =>
    let (crowd, g) := create_crowd_audio base count true (random w) in
    Return crowd (mkWorld g (exported w) (synthesized w ++ [(base, count)])).

(** Python's [round] of a float to an integer: to nearest, ties to even. *)
Definition py_round (x : Q) : Z :=
  let f := Qfloor x in
  match Qcompare (x - inject_Z f) (1 # 2) with
  | Lt => f
  | Gt => (f + 1)%Z
  | Eq => if Z.even f then f else (f + 1)%Z
  end.

(** [round(x)] on a float: an integer, or the exception Python raises
    on an infinity and on a value that is not a number. *)
Definition round (x : pyfloat) : Pipe Z :=
  match x with
  | Finite q => pure (py_round q)
  | Infinity _ => raise OverflowError
  | NaN => raise ValueError
  end.

Definition NUM_VOICES : Z := 100.

(** [round(NUM_VOICES * pct / 100)] (lines 140, 142), for a total of
    [total] voices. *)
Definition agree_count (total : Z) (pct : Q) : Z :=
  py_round (inject_Z total * pct / 100)%Q.

(** [NUM_VOICES - agree_count] (lines 141, 143). *)
Definition disagree_count (total : Z) (agree : Z) : Z := (total - agree)%Z.

Section Pipeline.

(** [float(s)] on a string: [None] when it raises [ValueError]. *)
Variable float : string -> option pyfloat.

(** [generate_tts(text, filename, voice_type)] followed by
    [AudioSegment.from_mp3(filename)]: the decoded utterance, or
    [None] when [generate_tts] returns [False]. *)
Variable generate_tts : string -> string -> string -> option AudioSegment.

Definition to_float (s : string) : Pipe pyfloat :=
  match float s with
  | Some x => pure x
  | None => raise ValueError
  end.

(** The three outputs of one population (lines 170-195 for "sci",
    200-225 for "pub": the same code up to the names). *)
Definition population_outputs (index : nat) (population : string)
    (agree_base disagree_base : AudioSegment) (agree disagree : Z)
  : Pipe unit :=
  (* Just agree *)
  (if (agree >? 0)%Z
   then agree_crowd <-- synthesize agree_base (Z.to_nat agree) ;;;
        export (output_file index (population ++ "_agree")) agree_crowd
   else export (output_file index (population ++ "_agree"))
               (silent (len agree_base))) ;;;
  (* Just disagree *)
  (if (disagree >? 0)%Z
   then disagree_crowd <-- synthesize disagree_base (Z.to_nat disagree) ;;;
        export (output_file index (population ++ "_disagree")) disagree_crowd
   else export (output_file index (population ++ "_disagree"))
               (silent (len disagree_base))) ;;;
  (* Both together *)
  agree_for_mix <-- (if (agree >? 0)%Z
                     then synthesize agree_base (Z.to_nat agree)
                     else pure (silent (len agree_base))) ;;;
  disagree_for_mix <-- (if (disagree >? 0)%Z
                        then synthesize disagree_base (Z.to_nat disagree)
                        else pure (silent (len disagree_base))) ;;;
  let both := mix_agree_disagree_crowds agree_for_mix disagree_for_mix in
  export (output_file index (population ++ "_both")) both.

(** generate_audio_for_issue (lines 127-228). *)
Definition generate_audio_for_issue (issue_data : Row) (index : nat)
  : Pipe bool :=
  let issue_name := replace "/" "_" (replace " " "_" (issue issue_data)) in
  let statement := statement issue_data in
  sci_consensus <-- to_float (scientific_consensus issue_data) ;;;
  pub_agreement <-- to_float (public_agreement issue_data) ;;;
  sci_agree_count <-- round (over_100 (int_times NUM_VOICES sci_consensus)) ;;;
  let sci_disagree_count := disagree_count NUM_VOICES sci_agree_count in
  pub_agree_count <-- round (over_100 (int_times NUM_VOICES pub_agreement)) ;;;
  let pub_disagree_count := disagree_count NUM_VOICES pub_agree_count in
  let agree_text := ("I believe " ++ statement)%string in
  let disagree_text := ("I don't believe " ++ statement)%string in
  let agree_temp := (TEMP_DIR ++ "/" ++ issue_name ++ "_agree.mp3")%string in
  let disagree_temp :=
    (TEMP_DIR ++ "/" ++ issue_name ++ "_disagree.mp3")%string in
  match generate_tts agree_text agree_temp "com" with
  | None => pure false
  | Some agree_base =>
      match generate_tts disagree_text disagree_temp "co.uk" with
      | None => pure false
      | Some disagree_base =>
          population_outputs index "sci" agree_base disagree_base
                             sci_agree_count sci_disagree_count ;;;
          population_outputs index "pub" agree_base disagree_base
                             pub_agree_count pub_disagree_count ;;;
          pure true
      end
  end.

(** The loop of [main] (lines 243-246) from index [index] on. *)
Fixpoint process (data : list Row) (index success_count : nat) : Pipe nat :=
  match data with
  | [] => pure success_count
  | issue :: rest =>
      ok <-- generate_audio_for_issue issue index ;;;
      process rest (S index) (if ok then S success_count else success_count)
  end.

(** main (lines 230-258) on the rows [load_csv_data] returned: the
    value is the pair printed as
    ["Generation complete: {success_count}/{len(data)} issues processed"]. *)
Definition main (data : list Row) : Pipe (nat * nat) :=
  success_count <-- process data 0 0 ;;;
  pure (success_count, List.length data).

End Pipeline.

(* ================================================================== *)
(** ** Descriptions the results are compared with *)

(** The first [n] jittered copies of [base], drawn one after the other. *)
Fixpoint jittered_copies (base : AudioSegment) (jitter : bool) (n : nat)
  : Rand (list AudioSegment) :=
  match n with
  | O => ret []
  | S n' =>
      copy <- varied base jitter ;;
      copies <- jittered_copies base jitter n' ;;
      ret (copy :: copies)
  end.

(** The accumulator after overlaying [layers], each attenuated by
    [attenuation] dB, onto [accumulator]. *)
Definition overlay_layers (attenuation : R) (accumulator : AudioSegment)
                          (layers : list AudioSegment) : AudioSegment :=
  fold_left (fun acc layer => overlay acc (apply_gain layer (- attenuation)))
            layers accumulator.

(** [a] followed by the silence that brings it to [duration]. *)
Definition pad_to (duration : nat) (a : AudioSegment) : AudioSegment :=
  append a (silent (duration - len a)).

(** The overlay of two buffers, each padded to the longer duration. *)
Definition padded_overlay (a b : AudioSegment) : AudioSegment :=
  overlay (pad_to (Nat.max (len a) (len b)) a)
          (pad_to (Nat.max (len a) (len b)) b).

(** The peak amplitude one decibel below full scale. *)
Definition minus_1_dBFS : R := IZR max_possible_amplitude * db_to_float (-1).

(** A crowd buffer or, for a count that is not positive, the silence
    the pipeline uses in its place. *)
Definition crowd_or_silence (base : AudioSegment) (count : Z)
                            (g : Random.State) : AudioSegment * Random.State :=
  if (count >? 0)%Z then create_crowd_audio base (Z.to_nat count) true g
  else (silent (len base), g).

(** Inputs the statements below are instantiated at: a two-sample
    utterance and the random source delivering 0, 1, 2, ... *)
Definition two_samples : AudioSegment := [100; -100]%Z.
Definition counting : Random.State := mkState (fun n => n) 0.

(** Two loud crowds, whose sum clips, and two quiet ones. *)
Definition loud_agree : AudioSegment := [20000]%Z.
Definition loud_disagree : AudioSegment := [15000; -1]%Z.
Definition quiet_agree : AudioSegment := [100; -100]%Z.
Definition quiet_disagree : AudioSegment := [50]%Z.

(** Two loud crowds whose sum has its peak on the negative side. *)
Definition low_agree : AudioSegment := [-20000; 0]%Z.
Definition low_disagree : AudioSegment := [-15000; 1]%Z.

(** The count [round(total * x / 100)] of lines 140 and 142, or the
    exception [round] raises. *)
Definition count_of (total : Z) (x : pyfloat) : exn + Z :=
  match over_100 (int_times total x) with
  | Finite q => inr (py_round q)
  | Infinity _ => inl OverflowError
  | NaN => inl ValueError
  end.

(** Lines 132-143: the agree counts of the two populations, or the
    first exception raised on the way. *)
Definition record_counts (float : string -> option pyfloat) (row : Row)
  : exn + (Z * Z) :=
  match float (scientific_consensus row), float (public_agreement row) with
  | None, _ => inl ValueError
  | Some _, None => inl ValueError
  | Some sci, Some pub =>
      match count_of NUM_VOICES sci, count_of NUM_VOICES pub with
      | inl e, _ => inl e
      | inr _, inl e => inl e
      | inr sci_agree, inr pub_agree => inr (sci_agree, pub_agree)
      end
  end.

(** The calls of [create_crowd_audio] one crowd costs: one for a
    positive count, none otherwise. *)
Definition calls (base : AudioSegment) (count : Z)
  : list (AudioSegment * nat) :=
  if (count >? 0)%Z then [(base, Z.to_nat count)] else [].

(** What lines 170-195 (and 200-225) do to the world: four crowds are
    made in this order; the first two are exported as they are, the last
    two only mixed. *)
Definition population_result (index : nat) (population : string)
    (agree_base disagree_base : AudioSegment) (agree disagree : Z)
    (w : World) : World :=
  let (agree_crowd, g1) := crowd_or_silence agree_base agree (random w) in
  let (disagree_crowd, g2) := crowd_or_silence disagree_base disagree g1 in
  let (agree_for_mix, g3) := crowd_or_silence agree_base agree g2 in
  let (disagree_for_mix, g4) := crowd_or_silence disagree_base disagree g3 in
  mkWorld g4
    (exported w ++
       [(output_file index (population ++ "_agree"), agree_crowd);
        (output_file index (population ++ "_disagree"), disagree_crowd);
        (output_file index (population ++ "_both"),
         mix_agree_disagree_crowds agree_for_mix disagree_for_mix)])
    (synthesized w ++
       calls agree_base agree ++ calls disagree_base disagree ++
       calls agree_base agree ++ calls disagree_base disagree).

(** [float] for the examples below.  It is [float] on decimal digits
    with an optional fractional part ("97", "97.5", ".5"), on "nan"
    and "inf", and on the strings [float] rejects for a character no
    number holds, such as "n/a"; signs, exponents, blanks and the other
    spellings of the two special values are left out, and no example
    uses them. *)
Definition digit_value (c : ascii) : option N :=
  let n := N_of_ascii c in
  if ((48 <=? n) && (n <=? 57))%N then Some (n - 48)%N else None.

Fixpoint digits_value (s : string) (acc : N) : option N :=
  match s with
  | EmptyString => Some acc
  | String c s' =>
      match digit_value c with
      | Some d => digits_value s' (10 * acc + d)%N
      | None => None
      end
  end.

Fixpoint split_at_point (s : string) : string * option string :=
  match s with
  | EmptyString => (EmptyString, None)
  | String c s' =>
      if Ascii.eqb c "." then (EmptyString, Some s')
      else let (i, f) := split_at_point s' in (String c i, f)
  end.

Definition decimal_float (s : string) : option pyfloat :=
  if String.eqb s "nan" then Some NaN
  else if String.eqb s "inf" then Some (Infinity false)
  else
    let (i, f) := split_at_point s in
    let f := match f with Some f => f | None => EmptyString end in
    if ((String.length i =? 0) && (String.length f =? 0))%nat then None
    else
      match digits_value i 0, digits_value f 0 with
      | Some n, Some m =>
          Some (Finite
                  (inject_Z (Z.of_N n)
                   + inject_Z (Z.of_N m)
                     / inject_Z (10 ^ Z.of_nat (String.length f)))%Q)
      | _, _ => None
      end.

(** A speech engine that always answers with the same utterance. *)
Definition speaking (text filename voice_type : string)
  : option AudioSegment := Some two_samples.

(** A world in which nothing has been done yet. *)
Definition fresh : World := mkWorld counting [] [].

Definition row_97_50 : Row := mkRow "Climate change" "the climate is changing" "97" "50".
Definition row_malformed : Row := mkRow "Vaccines" "vaccines are safe" "n/a" "50".
Definition row_nan : Row := mkRow "Evolution" "species evolve" "nan" "50".

(* ================================================================== *)
(** ** Further descriptions *)

(** A sample value of the 16-bit range, and a buffer of such values. *)
Definition in_range (s : Z) : Prop := (minval <= s <= maxval)%Z.
Definition valid (a : AudioSegment) : Prop := Forall in_range a.

(** Reading back the number [format_02d] wrote. *)
Definition index_of_02d (s : string) : option nat :=
  option_map Nat.of_uint (NilEmpty.uint_of_string s).

(** The six files of the record with index [index], in the order
    [generate_audio_for_issue] writes them. *)
Definition names_of_record (index : nat) : list string :=
  [output_file index "sci_agree"; output_file index "sci_disagree";
   output_file index "sci_both"; output_file index "pub_agree";
   output_file index "pub_disagree"; output_file index "pub_both"].

(** The temporary file names of lines 129 and 153-154. *)
Definition issue_name (row : Row) : string :=
  replace "/" "_" (replace " " "_" (issue row)).

(** Both utterances of a record are delivered (lines 157-160). *)
Definition speaks
    (generate_tts : string -> string -> string -> option AudioSegment)
    (row : Row) : bool :=
  match generate_tts ("I believe " ++ statement row)%string
          (TEMP_DIR ++ "/" ++ issue_name row ++ "_agree.mp3")%string
          "com"%string,
        generate_tts ("I don't believe " ++ statement row)%string
          (TEMP_DIR ++ "/" ++ issue_name row ++ "_disagree.mp3")%string
          "co.uk"%string with
  | Some _, Some _ => true
  | Some _, None => false
  | None, _ => false
  end.

(** Lines 132-143 raise nothing on the record: both percentages are
    numbers for [float] and both counts are integers for [round]. *)
Definition well_formed (float : string -> option pyfloat) (row : Row)
  : Prop :=
  exists counts : Z * Z, record_counts float row = inr counts.


(** The world an outcome leaves. *)
Definition world_of {A} (o : Outcome A) : World :=
  match o with
  | Raise _ w => w
  | Return _ w => w
  end.

(** The indices, from [index] on, of the records that speak. *)
Fixpoint speaking_indices
    (generate_tts : string -> string -> string -> option AudioSegment)
    (data : list Row) (index : nat) : list nat :=
  match data with
  | [] => []
  | row :: rest =>
      if speaks generate_tts row
      then index :: speaking_indices generate_tts rest (S index)
      else speaking_indices generate_tts rest (S index)
  end.

(** No character of [s] is [c]. *)
Fixpoint free_of (c : ascii) (s : string) : Prop :=
  match s with
  | EmptyString => True
  | String c' s' => c' <> c /\ free_of c s'
  end.

(* ================================================================== *)
(** ** Facts about the pydub operations *)

Lemma len_silent (d : nat) : len (silent d) = d.
Proof. unfold len, silent. apply repeat_length. Qed.

Lemma len_append (a b : AudioSegment) :
  len (append a b) = (len a + len b)%nat.
Proof. unfold len, append. apply length_app. Qed.

Lemma len_apply_gain (a : AudioSegment) (db : R) :
  len (apply_gain a db) = len a.
Proof. unfold len, apply_gain. apply length_map. Qed.

Lemma len_overlay (a b : AudioSegment) : len (overlay a b) = len a.
Proof.
  revert b. induction a as [|x a IH]; intros [|y b]; simpl; auto.
Qed.

Lemma overlay_firstn (a b : AudioSegment) :
  overlay a b = overlay a (firstn (len a) b).
Proof.
  revert b. induction a as [|x a IH]; intros [|y b]; simpl; auto.
  f_equal. apply IH.
Qed.

Lemma max_nonneg (a : AudioSegment) : (0 <= Pydub.max a)%Z.
Proof. induction a as [|x a IH]; simpl; lia. Qed.

Lemma max_silent (d : nat) : Pydub.max (silent d) = 0%Z.
Proof.
  induction d as [|d IH]; simpl; auto.
  unfold silent in IH. rewrite IH. reflexivity.
Qed.

Lemma silent_all_zero (d : nat) : Forall (fun s => s = 0%Z) (silent d).
Proof. unfold silent. induction d; simpl; constructor; auto. Qed.

Lemma len_normalize (a : AudioSegment) (headroom : R) :
  len (normalize a headroom) = len a.
Proof.
  unfold normalize. cbv zeta.
  destruct (Pydub.max a =? 0)%Z; auto.
  destruct (ratio_to_db _); simpl; [apply length_map | apply len_apply_gain].
Qed.

(* ================================================================== *)
(** ** The random source *)

Lemma randint_range (a b : nat) (g : Random.State) :
  (a <= b -> a <= fst (randint a b g) <= b)%nat.
Proof.
  intros Hab. unfold randint. simpl.
  assert (H : (tape g (pos g) mod (b - a + 1) < b - a + 1)%nat)
    by (apply Nat.mod_upper_bound; lia).
  lia.
Qed.

Lemma randint_pos (a b : nat) (g : Random.State) :
  pos (snd (randint a b g)) = S (pos g).
Proof. reflexivity. Qed.


(* ================================================================== *)
(** ** The layering loop *)

Lemma varied_false (base : AudioSegment) (g : Random.State) :
  varied base false g = (base, g).
Proof. reflexivity. Qed.

Lemma varied_true (base : AudioSegment) (g : Random.State) :
  varied base true g =
  (append (silent (fst (randint 0 30 g))) base, snd (randint 0 30 g)).
Proof. reflexivity. Qed.

Lemma len_varied_true (base : AudioSegment) (g : Random.State) :
  len (fst (varied base true g)) = (fst (randint 0 30 g) + len base)%nat.
Proof. rewrite varied_true. simpl fst. now rewrite len_append, len_silent. Qed.

Lemma varied_pos (base : AudioSegment) (jitter : bool) (g : Random.State) :
  pos (snd (varied base jitter g)) = (pos g + if jitter then 1 else 0)%nat.
Proof. destruct jitter; simpl; lia. Qed.

Lemma jittered_copies_length base jitter n g :
  List.length (fst (jittered_copies base jitter n g)) = n.
Proof.
  revert g. induction n as [|n IH]; intros g; simpl; auto.
  unfold bind. destruct (varied base jitter g) as [c g1].
  specialize (IH g1). destruct (jittered_copies base jitter n g1) as [cs g2].
  simpl in *. now rewrite IH.
Qed.

Lemma jittered_copies_pos base jitter n g :
  pos (snd (jittered_copies base jitter n g)) =
  (pos g + if jitter then n else 0)%nat.
Proof.
  revert g. induction n as [|n IH]; intros g; simpl.
  - destruct jitter; lia.
  - unfold bind. pose proof (varied_pos base jitter g) as Hv.
    destruct (varied base jitter g) as [c g1].
    specialize (IH g1). destruct (jittered_copies base jitter n g1) as [cs g2].
    simpl in *. rewrite IH, Hv. destruct jitter; lia.
Qed.

(** The [for] loop of lines 93-97 overlays the copies drawn in order. *)
Lemma layering_loop base jitter attenuation (xs : list nat) acc g :
  for_each xs
    (fun _ result =>
       copy <- varied base jitter ;;
       let copy := apply_gain copy (- attenuation) in
       ret (overlay result copy))
    acc g
  = (overlay_layers attenuation acc
       (fst (jittered_copies base jitter (List.length xs) g)),
     snd (jittered_copies base jitter (List.length xs) g)).
Proof.
  revert acc g. induction xs as [|x xs IH]; intros acc g; simpl; auto.
  unfold bind. destruct (varied base jitter g) as [c g1].
  unfold ret at 1. fold (@bind AudioSegment AudioSegment). rewrite IH.
  destruct (jittered_copies base jitter (List.length xs) g1) as [cs g2].
  reflexivity.
Qed.

Lemma len_overlay_layers attenuation acc layers :
  len (overlay_layers attenuation acc layers) = len acc.
Proof.
  revert acc. induction layers as [|l ls IH]; intros acc; simpl; auto.
  unfold overlay_layers in *. simpl. now rewrite IH, len_overlay.
Qed.

Lemma range_length (a b : nat) : List.length (range a b) = (b - a)%nat.
Proof. unfold range. apply length_seq. Qed.

(** The layering branch of [create_crowd_audio], loop resolved. *)
Lemma create_crowd_audio_layers base v jitter g :
  (1 < v)%nat ->
  create_crowd_audio base v jitter g =
  let first := varied base jitter g in
  let rest := jittered_copies base jitter (num_layers v - 1) (snd first) in
  (apply_gain
     (overlay_layers (layer_attenuation (num_layers v)) (fst first) (fst rest))
     (db_increase v),
   snd rest).
Proof.
  intros Hv. destruct v as [|[|n]]; try lia.
  unfold create_crowd_audio. cbv zeta.
  unfold bind at 1. destruct (varied base jitter g) as [first g1].
  unfold bind at 1. rewrite layering_loop, range_length. reflexivity.
Qed.

(** The float square root cut to an integer is the integer square root. *)
Lemma int_sqrt (v : nat) : int (sqrt (INR v)) = Nat.sqrt v.
Proof.
  unfold int.
  rewrite (Zfloor_eq (Z.of_nat (Nat.sqrt v))); [apply Nat2Z.id|].
  destruct (Nat.sqrt_spec v (Nat.le_0_l v)) as [Hlo Hhi].
  set (s := Nat.sqrt v) in *.
  rewrite <- INR_IZR_INZ.
  assert (Hs : 0 <= INR s) by apply pos_INR.
  split.
  - rewrite <- (sqrt_square (INR s)) at 1 by exact Hs.
    apply sqrt_le_1; [nra | apply pos_INR |].
    rewrite <- mult_INR. now apply le_INR.
  - replace (INR s + 1) with (sqrt ((INR s + 1) * (INR s + 1)))
      by (apply sqrt_square; lra).
    apply sqrt_lt_1; [apply pos_INR | nra |].
    replace (INR s + 1) with (INR (S s)) by (rewrite S_INR; lra).
    rewrite <- mult_INR. now apply lt_INR.
Qed.

Lemma num_layers_isqrt (v : nat) : num_layers v = Nat.min (Nat.sqrt v) 50.
Proof. unfold num_layers. now rewrite int_sqrt. Qed.

Lemma num_layers_pos (v : nat) : (1 <= v -> 1 <= num_layers v)%nat.
Proof.
  intros Hv. rewrite num_layers_isqrt.
  assert (1 <= Nat.sqrt v)%nat.
  { change 1%nat with (Nat.sqrt 1). now apply Nat.sqrt_le_mono. }
  lia.
Qed.

Lemma num_layers_mono (v1 v2 : nat) :
  (v1 <= v2 -> num_layers v1 <= num_layers v2)%nat.
Proof.
  intros H. rewrite !num_layers_isqrt.
  pose proof (Nat.sqrt_le_mono v1 v2 H). lia.
Qed.

Lemma ln_10_pos : 0 < ln 10.
Proof. rewrite <- ln_1. apply ln_increasing; lra. Qed.


Lemma clip_max_min (x : Z) : clip x = Z.max (-32768) (Z.min 32767 x).
Proof.
  unfold clip, maxval, minval.
  destruct (Z.gtb_spec x 32767); [lia|].
  destruct (Z.ltb_spec x (-32768)); lia.
Qed.



(* ================================================================== *)
(** ** The crowd synthesizer *)



(** C2.  The layer count is [min(floor(sqrt v), 50)]: the integer
    square root, which is the floor of the real one, capped at 50.  It
    does not decrease when [v] grows, never exceeds 50, is 2 at 4, 10 at
    100 and 50 at 2500; and for [v > 1] the synthesizer uses exactly
    that many copies of the base (with jitter on, one random draw for
    each of them). *)
Theorem num_layers_floor_sqrt (v : nat) :
  num_layers v = Nat.min (Nat.sqrt v) 50 /\
  INR (Nat.sqrt v) <= sqrt (INR v) < INR (Nat.sqrt v) + 1 /\
  (forall v' : nat, (v <= v')%nat -> (num_layers v <= num_layers v')%nat) /\
  (num_layers v <= 50)%nat /\
  num_layers 4 = 2%nat /\ num_layers 100 = 10%nat /\ num_layers 2500 = 50%nat /\
  forall (base : AudioSegment) (jitter : bool) (g : Random.State),
    (1 < v)%nat ->
    List.length (fst (jittered_copies base jitter (num_layers v) g))
      = num_layers v /\
    create_crowd_audio base v jitter g =
      (apply_gain
         (overlay_layers (layer_attenuation (num_layers v))
            (hd [] (fst (jittered_copies base jitter (num_layers v) g)))
            (tl (fst (jittered_copies base jitter (num_layers v) g))))
         (db_increase v),
       snd (jittered_copies base jitter (num_layers v) g)) /\
    pos (snd (create_crowd_audio base v true g)) = (pos g + num_layers v)%nat.
Proof.
  split; [apply num_layers_isqrt|].
  split.
  { pose proof (int_sqrt v) as H. unfold int in H.
    pose proof (Zfloor_bound (sqrt (INR v))) as Hb.
    assert (Hz : Zfloor (sqrt (INR v)) = Z.of_nat (Nat.sqrt v)).
    { assert (0 <= Zfloor (sqrt (INR v)))%Z.
      { apply (Zfloor_lub 0). apply sqrt_pos. }
      lia. }
    rewrite Hz, <- INR_IZR_INZ in Hb. exact Hb. }
  split; [intros v'; apply num_layers_mono|].
  split; [rewrite num_layers_isqrt; lia|].
  split; [rewrite num_layers_isqrt; reflexivity|].
  split; [rewrite num_layers_isqrt; reflexivity|].
  split; [rewrite num_layers_isqrt; reflexivity|].
  intros base jitter g Hv.
  split; [apply jittered_copies_length|].
  pose proof (num_layers_pos v ltac:(lia)) as HL.
  rewrite !create_crowd_audio_layers by exact Hv. cbv zeta.
  destruct (num_layers v) as [|n] eqn:E; [lia|].
  replace (S n - 1)%nat with n by lia.
  split.
  - simpl jittered_copies. unfold bind.
    destruct (varied base jitter g) as [first g1]. simpl fst. simpl snd.
    destruct (jittered_copies base jitter n g1) as [rest g2]. reflexivity.
  - cbn [snd fst]. rewrite jittered_copies_pos, varied_pos. lia.
Qed.

Lemma num_layers_floor_sqrt_witness :
  (1 < 100)%nat /\
  num_layers 100 = 10%nat /\
  List.length (fst (jittered_copies two_samples true (num_layers 100) counting))
    = num_layers 100 /\
  pos (snd (create_crowd_audio two_samples 100 true counting))
    = (pos counting + num_layers 100)%nat.
Proof.
  assert (H : (1 < 100)%nat) by lia.
  pose proof (num_layers_floor_sqrt 100) as (_ & _ & _ & _ & _ & H100 & _ & Hv).
  destruct (Hv two_samples true counting H) as (Hlen & _ & Hpos).
  split; [exact H|]. split; [exact H100|]. split; [exact Hlen | exact Hpos].
Defined.

(** C8.  For a crowd of size 0, [create_crowd_audio] returns, whatever
    the jitter flag and without drawing a random number, a buffer of
    the duration of the base whose samples are all zero: its peak
    amplitude is 0 and its level is minus infinity. *)
Theorem create_crowd_audio_zero
    (base : AudioSegment) (jitter : bool) (g : Random.State) :
  create_crowd_audio base 0 jitter g = (silent (len base), g) /\
  len (fst (create_crowd_audio base 0 jitter g)) = len base /\
  Forall (fun s => s = 0%Z) (fst (create_crowd_audio base 0 jitter g)) /\
  Pydub.max (fst (create_crowd_audio base 0 jitter g)) = 0%Z /\
  max_dBFS (fst (create_crowd_audio base 0 jitter g)) = NegInf.
Proof.
  simpl. unfold ret. simpl.
  split; [reflexivity|].
  split; [apply len_silent|].
  split; [apply silent_all_zero|].
  split; [apply max_silent|].
  unfold max_dBFS, ratio_to_db. rewrite max_silent.
  destruct (Req_dec_T (0 / IZR max_possible_amplitude) 0) as [_|H]; auto.
  exfalso. apply H. unfold Rdiv. apply Rmult_0_l.
Qed.



(** C10.  For a crowd size [v > 1] with jitter on, the output lasts as
    long as the first jittered copy: the base plus the silence drawn for
    that copy.  An overlaid layer never extends the accumulator: the
    overlay keeps the accumulator's duration and ignores what the layer
    holds beyond it. *)
Theorem create_crowd_audio_duration
    (base : AudioSegment) (v : nat) (g : Random.State) :
  (1 < v)%nat ->
  len (fst (create_crowd_audio base v true g))
    = len (fst (add_slight_variation base 30 g)) /\
  len (fst (add_slight_variation base 30 g))
    = (len base + fst (randint 0 30 g))%nat /\
  forall acc layer : AudioSegment,
    len (overlay acc layer) = len acc /\
    overlay acc layer = overlay acc (firstn (len acc) layer).
Proof.
  intros Hv.
  split.
  - rewrite create_crowd_audio_layers by exact Hv. cbv zeta. cbn [fst].
    now rewrite len_apply_gain, len_overlay_layers.
  - split.
    + change (add_slight_variation base 30) with (varied base true).
      rewrite len_varied_true. lia.
    + intros acc layer. split; [apply len_overlay | apply overlay_firstn].
Qed.

Lemma create_crowd_audio_duration_witness :
  (1 < 9)%nat /\
  len (fst (create_crowd_audio two_samples 9 true counting))
    = len (fst (add_slight_variation two_samples 30 counting)) /\
  len (fst (add_slight_variation two_samples 30 counting))
    = (len two_samples + fst (randint 0 30 counting))%nat /\
  forall acc layer : AudioSegment,
    len (overlay acc layer) = len acc /\
    overlay acc layer = overlay acc (firstn (len acc) layer).
Proof.
  split; [lia|].
  apply (create_crowd_audio_duration two_samples 9 counting).
  lia.
Defined.

(* ================================================================== *)
(** ** Levels and gains *)

Lemma db_to_float_pos (db : R) : 0 < db_to_float db.
Proof. unfold db_to_float, Rpower. apply exp_pos. Qed.

Lemma log10_db_to_float (db : R) : 20 * log10 (db_to_float db) = db.
Proof.
  unfold log10, Rlog, db_to_float. rewrite ln_Rpower.
  pose proof ln_10_pos. field. lra.
Qed.

Lemma db_to_float_log10 (r : R) : 0 < r -> db_to_float (20 * log10 r) = r.
Proof.
  intros Hr. unfold db_to_float, log10, Rlog, Rpower.
  replace (20 * (ln r / ln 10) / 20 * ln 10) with (ln r)
    by (pose proof ln_10_pos; field; lra).
  now apply exp_ln.
Qed.

Lemma db_to_float_minus_1_pow : db_to_float (-1) ^ 20 = / 10.
Proof.
  rewrite <- Rpower_pow by apply db_to_float_pos.
  unfold db_to_float. rewrite Rpower_mult.
  replace (-1 / 20 * INR 20) with (- (1)) by (simpl; field).
  rewrite Rpower_Ropp, Rpower_1; lra.
Qed.

(** One decibel down, on the 16-bit scale, lies between two
    neighbouring sample values. *)
Lemma db_to_float_minus_1_value :
  29204 / 32768 < db_to_float (-1) < 29205 / 32768.
Proof.
  pose proof (db_to_float_pos (-1)) as Hpos.
  pose proof db_to_float_minus_1_pow as Hx.
  split.
  - destruct (Rlt_le_dec (29204 / 32768) (db_to_float (-1))) as [H|H];
      [exact H | exfalso].
    assert (Hpow : db_to_float (-1) ^ 20 <= (29204 / 32768) ^ 20)
      by (apply pow_incr; lra).
    rewrite Hx in Hpow.
    assert ((29204 / 32768) ^ 20 < / 10) by (simpl; lra).
    lra.
  - destruct (Rlt_le_dec (db_to_float (-1)) (29205 / 32768)) as [H|H];
      [exact H | exfalso].
    assert (Hpow : (29205 / 32768) ^ 20 <= db_to_float (-1) ^ 20)
      by (apply pow_incr; lra).
    rewrite Hx in Hpow.
    assert (/ 10 < (29205 / 32768) ^ 20) by (simpl; lra).
    lra.
Qed.

Lemma db_to_float_minus_1_upper : db_to_float (-1) < 891255 / 1000000.
Proof.
  pose proof (db_to_float_pos (-1)) as Hpos.
  pose proof db_to_float_minus_1_pow as Hx.
  destruct (Rlt_le_dec (db_to_float (-1)) (891255 / 1000000)) as [H|H];
    [exact H | exfalso].
  assert (Hpow : (891255 / 1000000) ^ 20 <= db_to_float (-1) ^ 20)
    by (apply pow_incr; lra).
  rewrite Hx in Hpow.
  assert (/ 10 < (891255 / 1000000) ^ 20) by (simpl; lra).
  lra.
Qed.

Lemma log10_increasing (x y : R) : 0 < x -> x < y -> log10 x < log10 y.
Proof.
  intros Hx Hxy. unfold log10, Rlog.
  apply Rmult_lt_compat_r; [apply Rinv_0_lt_compat, ln_10_pos|].
  now apply ln_increasing.
Qed.

Lemma abs_le_max (a : AudioSegment) (s : Z) :
  In s a -> (Z.abs s <= Pydub.max a)%Z.
Proof.
  induction a as [|x a IH]; simpl; [tauto|].
  intros [->|H]; [lia|]. specialize (IH H). lia.
Qed.

(** The peak is the magnitude of one of the samples. *)
Lemma max_attained (a : AudioSegment) :
  (0 < Pydub.max a)%Z -> In (Pydub.max a) a \/ In (- Pydub.max a)%Z a.
Proof.
  induction a as [|x a IH]; simpl; [lia|]. intros H.
  destruct (Z_le_gt_dec (Pydub.max a) (Z.abs x)) as [Hle|Hgt].
  - rewrite Z.max_l by lia.
    destruct (Z_le_gt_dec 0 x).
    + left. left. lia.
    + right. left. lia.
  - rewrite Z.max_r in * by lia. destruct (IH H); auto.
Qed.

Lemma max_map_le (f : Z -> Z) (a : AudioSegment) (B : Z) :
  (0 <= B)%Z -> (forall s, In s a -> (Z.abs (f s) <= B)%Z) ->
  (Pydub.max (map f a) <= B)%Z.
Proof.
  intros HB. induction a as [|x a IH]; simpl; intros H; [lia|].
  assert (Z.abs (f x) <= B)%Z by (apply H; now left).
  assert (Pydub.max (map f a) <= B)%Z by (apply IH; intros; apply H; now right).
  lia.
Qed.

Lemma max_map_ge (f : Z -> Z) (a : AudioSegment) (s : Z) :
  In s a -> (Z.abs (f s) <= Pydub.max (map f a))%Z.
Proof. intros H. apply abs_le_max. now apply in_map. Qed.

Lemma max_in_range (a : AudioSegment) :
  Forall in_range a -> (Pydub.max a <= 32768)%Z.
Proof.
  unfold in_range, minval, maxval.
  induction 1 as [|x a Hx _ IH]; simpl; lia.
Qed.

(** Inside the range [fbound] only rounds down. *)
Lemma fbound_floor (x : R) :
  IZR minval + 1 <= x <= IZR maxval -> fbound x = Zfloor x.
Proof.
  intros [Hlo Hhi]. unfold fbound.
  destruct (Rlt_dec (IZR maxval) x) as [H|_]; [lra|].
  destruct (Rlt_dec x (IZR minval + 1)) as [H|_]; [lra | reflexivity].
Qed.

Lemma fbound_in_range (x : R) : in_range (fbound x).
Proof.
  unfold in_range, fbound, maxval, minval.
  destruct (Rlt_dec 32767 x) as [H|H]; [rewrite ZfloorZ; lia|].
  destruct (Rlt_dec x (-32768 + 1)) as [H'|H']; [rewrite ZfloorZ; lia|].
  pose proof (Zfloor_bound x) as [Hlo Hhi].
  split.
  - apply (Zfloor_lub (-32768)). lra.
  - apply Z.lt_succ_r, lt_IZR. change (Z.succ 32767) with 32768%Z. lra.
Qed.

Lemma clip_in_range (x : Z) : in_range (clip x).
Proof. unfold in_range. rewrite clip_max_min. unfold minval, maxval. lia. Qed.

Lemma clip_id (x : Z) : in_range x -> clip x = x.
Proof. unfold in_range, minval, maxval. rewrite clip_max_min. lia. Qed.

(** A magnitude below a sample value stays at most that value after
    rounding down. *)
Lemma floor_abs_lt (x : R) (n : Z) :
  - IZR n < x < IZR n -> (Z.abs (Zfloor x) <= n)%Z.
Proof.
  intros [Hlo Hhi]. pose proof (Zfloor_bound x) as [Hf Hf'].
  assert (Zfloor x < n)%Z by (apply lt_IZR; lra).
  assert (- n - 1 < Zfloor x)%Z.
  { apply lt_IZR. rewrite minus_IZR, opp_IZR. lra. }
  lia.
Qed.

(* ================================================================== *)
(** ** The crowd mixer *)

Lemma len_pad_to (n : nat) (a : AudioSegment) :
  (len a <= n)%nat -> len (pad_to n a) = n.
Proof. intros H. unfold pad_to. rewrite len_append, len_silent. lia. Qed.

(** Lines 112-115 pad, whichever buffer is the shorter. *)
Lemma pad_if_shorter (n : nat) (a : AudioSegment) :
  (len a <= n)%nat ->
  (if (len a <? n)%nat then append a (silent (n - len a)) else a) = pad_to n a.
Proof.
  intros H. unfold pad_to. destruct (Nat.ltb_spec (len a) n) as [Hlt|Hge]; auto.
  replace (n - len a)%nat with 0%nat by lia.
  unfold append, silent. simpl. now rewrite app_nil_r.
Qed.

Lemma mix_guard (a b : AudioSegment) :
  mix_agree_disagree_crowds a b =
  if exceeds_dec (max_dBFS (padded_overlay a b)) (-1)
  then normalize (padded_overlay a b) 1
  else padded_overlay a b.
Proof.
  unfold mix_agree_disagree_crowds, padded_overlay. cbv zeta.
  rewrite !pad_if_shorter by lia. reflexivity.
Qed.

Lemma len_padded_overlay (a b : AudioSegment) :
  len (padded_overlay a b) = Nat.max (len a) (len b).
Proof. unfold padded_overlay. rewrite len_overlay. apply len_pad_to. lia. Qed.

Lemma len_mix (a b : AudioSegment) :
  len (mix_agree_disagree_crowds a b) = Nat.max (len a) (len b).
Proof.
  rewrite mix_guard. destruct (exceeds_dec _ _).
  - rewrite len_normalize. apply len_padded_overlay.
  - apply len_padded_overlay.
Qed.

(** On the 16-bit scale -1 dBFS lies between the sample values 29204
    and 29205. *)
Lemma minus_1_dBFS_value : 29204 < minus_1_dBFS < 29205.
Proof.
  unfold minus_1_dBFS, max_possible_amplitude.
  pose proof db_to_float_minus_1_value. lra.
Qed.

Lemma max_dBFS_peak (a : AudioSegment) :
  (0 < Pydub.max a)%Z ->
  max_dBFS a = Fin (20 * log10 (IZR (Pydub.max a) / 32768)).
Proof.
  intros H. apply IZR_lt in H.
  unfold max_dBFS, ratio_to_db, max_possible_amplitude.
  destruct (Req_dec_T (IZR (Pydub.max a) / 32768) 0) as [E|_]; [|reflexivity].
  exfalso. unfold Rdiv in E. lra.
Qed.

Lemma max_dBFS_silent (a : AudioSegment) :
  Pydub.max a = 0%Z -> max_dBFS a = NegInf.
Proof.
  intros H. unfold max_dBFS, ratio_to_db. rewrite H.
  destruct (Req_dec_T (0 / IZR max_possible_amplitude) 0) as [_|Hn]; auto.
  exfalso. apply Hn. unfold Rdiv. apply Rmult_0_l.
Qed.

Lemma not_exceeds (l : level) (x : R) : ~ exceeds l x <-> at_most l x.
Proof. destruct l; simpl; [tauto|]. split; lra. Qed.

(** The test [mixed.max_dBFS > -1] of line 122, on the peak sample. *)
Lemma exceeds_minus_1_peak (a : AudioSegment) :
  exceeds (max_dBFS a) (-1) <-> minus_1_dBFS < IZR (Pydub.max a).
Proof.
  pose proof (max_nonneg a) as H0.
  pose proof (db_to_float_pos (-1)) as Hk.
  pose proof (log10_db_to_float (-1)) as Hlog.
  destruct (Z.eq_dec (Pydub.max a) 0) as [E|NE].
  - rewrite (max_dBFS_silent a E), E. simpl.
    pose proof minus_1_dBFS_value. split; [tauto | lra].
  - assert (Hpos : (0 < Pydub.max a)%Z) by lia.
    rewrite (max_dBFS_peak a Hpos). apply IZR_lt in Hpos.
    unfold minus_1_dBFS, max_possible_amplitude. simpl.
    assert (Hr : 0 < IZR (Pydub.max a) / 32768) by (unfold Rdiv; lra).
    split; intros H.
    + destruct (Rlt_le_dec (32768 * db_to_float (-1)) (IZR (Pydub.max a)))
        as [Hlt|Hle]; [exact Hlt | exfalso].
      destruct (Req_dec (IZR (Pydub.max a) / 32768) (db_to_float (-1)))
        as [Eq|Ne].
      * rewrite Eq in H. lra.
      * assert (Hlt : log10 (IZR (Pydub.max a) / 32768)
                      < log10 (db_to_float (-1)))
          by (apply log10_increasing; unfold Rdiv in *; lra).
        lra.
    + assert (Hlt : log10 (db_to_float (-1))
                    < log10 (IZR (Pydub.max a) / 32768))
        by (apply log10_increasing; unfold Rdiv in *; lra).
      lra.
Qed.

(** The same test on integer samples: the peak is 29205 or more. *)
Lemma exceeds_minus_1_sample (a : AudioSegment) :
  exceeds (max_dBFS a) (-1) <-> (29205 <= Pydub.max a)%Z.
Proof.
  rewrite exceeds_minus_1_peak. pose proof minus_1_dBFS_value as [Hlo Hhi].
  split; intros H.
  - destruct (Z_le_gt_dec 29205 (Pydub.max a)) as [Hle|Hgt]; [exact Hle|].
    assert (Pydub.max a <= 29204)%Z as Hle by lia.
    apply IZR_le in Hle. lra.
  - apply IZR_le in H. lra.
Qed.

Lemma overlay_in_range (a b : AudioSegment) :
  (len a <= len b)%nat -> Forall in_range (overlay a b).
Proof.
  unfold len. revert b.
  induction a as [|x a IH]; intros [|y b] H; simpl in *; try lia;
    constructor.
  - apply clip_in_range.
  - apply IH. lia.
Qed.

(** Both buffers are padded to one duration, so every sample of the sum
    went through the clipping addition. *)
Lemma padded_overlay_in_range (a b : AudioSegment) :
  Forall in_range (padded_overlay a b).
Proof.
  unfold padded_overlay. apply overlay_in_range.
  rewrite !len_pad_to by lia. lia.
Qed.

(** The factor of the normalization, on the samples of a buffer whose
    peak exceeds -1 dBFS. *)
Lemma normalize_factor (P : Z) :
  (29205 <= P <= 32768)%Z ->
  0 < minus_1_dBFS / IZR P /\
  IZR P * (minus_1_dBFS / IZR P) = minus_1_dBFS /\
  forall s : Z, (Z.abs s <= P - 1)%Z ->
    - (29204) < IZR s * (minus_1_dBFS / IZR P) < 29204.
Proof.
  intros [HP HP']. pose proof minus_1_dBFS_value as [HT HT'].
  apply IZR_le in HP, HP'.
  assert (Hk : 0 < minus_1_dBFS / IZR P) by (apply Rdiv_lt_0_compat; lra).
  assert (HPk : IZR P * (minus_1_dBFS / IZR P) = minus_1_dBFS)
    by (field; lra).
  split; [exact Hk|]. split; [exact HPk|].
  intros s Hs.
  assert (Hd : db_to_float (-1) <= minus_1_dBFS / IZR P).
  { unfold minus_1_dBFS, max_possible_amplitude.
    pose proof (db_to_float_pos (-1)) as Hpos.
    apply (Rmult_le_reg_r (IZR P)); [lra|].
    replace (32768 * db_to_float (-1) / IZR P * IZR P)
      with (32768 * db_to_float (-1)) by (field; lra).
    rewrite Rmult_comm. apply Rmult_le_compat_r; lra. }
  assert (Hup : minus_1_dBFS < 891255 / 1000000 * 32768).
  { unfold minus_1_dBFS, max_possible_amplitude.
    pose proof db_to_float_minus_1_upper. lra. }
  pose proof db_to_float_minus_1_value as [Hdlo _].
  assert (Hbound : (IZR P - 1) * (minus_1_dBFS / IZR P) < 29204).
  { replace ((IZR P - 1) * (minus_1_dBFS / IZR P))
      with (minus_1_dBFS - minus_1_dBFS / IZR P) by (field; lra).
    lra. }
  assert (Habs : Rabs (IZR s) <= IZR P - 1).
  { rewrite <- abs_IZR, <- minus_IZR. now apply IZR_le. }
  assert (Rabs (IZR s * (minus_1_dBFS / IZR P)) < 29204).
  { rewrite Rabs_mult, (Rabs_pos_eq (minus_1_dBFS / IZR P)) by lra.
    eapply Rle_lt_trans; [|exact Hbound].
    apply Rmult_le_compat_r; lra. }
  apply Rabs_def2 in H. lra.
Qed.

(** [normalize(headroom=1.0)] on a buffer that is not silent multiplies
    every sample by [minus_1_dBFS / peak] and rounds the product down;
    nothing is clipped. *)
Lemma normalize_floor (a : AudioSegment) :
  (0 < Pydub.max a)%Z ->
  normalize a 1
  = map (fun s => Zfloor (IZR s * (minus_1_dBFS / IZR (Pydub.max a)))) a.
Proof.
  intros Hpos. unfold normalize. cbv zeta.
  destruct (Z.eqb_spec (Pydub.max a) 0) as [E|_]; [lia|].
  pose proof minus_1_dBFS_value as [HT HT'].
  assert (Hpeak : 0 < IZR (Pydub.max a)) by now apply IZR_lt.
  assert (Hr : 0 < minus_1_dBFS / IZR (Pydub.max a))
    by (apply Rdiv_lt_0_compat; lra).
  replace (- (1)) with (-1) by lra.
  fold minus_1_dBFS. unfold ratio_to_db.
  destruct (Req_dec_T (minus_1_dBFS / IZR (Pydub.max a)) 0) as [E|_]; [lra|].
  cbn [apply_gain_level]. unfold apply_gain.
  rewrite db_to_float_log10 by exact Hr.
  apply map_ext_in. intros s Hs. apply fbound_floor.
  pose proof (abs_le_max a s Hs) as Habs. apply IZR_le in Habs.
  rewrite abs_IZR in Habs.
  assert (Hsk : Rabs (IZR s * (minus_1_dBFS / IZR (Pydub.max a)))
                <= minus_1_dBFS).
  { rewrite Rabs_mult, (Rabs_pos_eq (minus_1_dBFS / IZR (Pydub.max a))) by lra.
    replace minus_1_dBFS
      with (IZR (Pydub.max a) * (minus_1_dBFS / IZR (Pydub.max a))) at 2
      by (field; lra).
    apply Rmult_le_compat_r; lra. }
  unfold minval, maxval.
  pose proof (Rle_abs (IZR s * (minus_1_dBFS / IZR (Pydub.max a)))).
  pose proof (Rle_abs (- (IZR s * (minus_1_dBFS / IZR (Pydub.max a))))) as Hneg.
  rewrite Rabs_Ropp in Hneg. lra.
Qed.

Lemma floor_minus_1_dBFS :
  Zfloor minus_1_dBFS = 29204%Z /\ Zfloor (- minus_1_dBFS) = (-29205)%Z.
Proof.
  pose proof minus_1_dBFS_value as [HT HT'].
  split; apply Zfloor_eq; lra.
Qed.

(** The peak after normalization: the positive peak sample is rounded
    down to 29204, the negative one to -29205, and every other sample
    stays within 29204 in magnitude. *)
Lemma max_normalize (a : AudioSegment) :
  (29205 <= Pydub.max a <= 32768)%Z ->
  (~ In (- Pydub.max a)%Z a -> Pydub.max (normalize a 1) = 29204%Z) /\
  (In (- Pydub.max a)%Z a -> Pydub.max (normalize a 1) = 29205%Z).
Proof.
  intros HP. rewrite normalize_floor by lia.
  destruct (normalize_factor _ HP) as (Hk & HPk & Hrest).
  destruct floor_minus_1_dBFS as [Hfl Hfl'].
  set (f := fun s : Z => Zfloor (IZR s * (minus_1_dBFS / IZR (Pydub.max a)))).
  assert (Hpeak : f (Pydub.max a) = 29204%Z)
    by (unfold f; now rewrite HPk).
  assert (Hneg : f (- Pydub.max a)%Z = (-29205)%Z).
  { unfold f. rewrite opp_IZR, Ropp_mult_distr_l_reverse, HPk. exact Hfl'. }
  assert (Hother : forall s, In s a ->
            s <> (- Pydub.max a)%Z -> (Z.abs (f s) <= 29204)%Z).
  { intros s Hs Hne. pose proof (abs_le_max a s Hs) as Habs.
    destruct (Z.eq_dec s (Pydub.max a)) as [->|Hne'].
    - rewrite Hpeak. lia.
    - unfold f. apply floor_abs_lt. apply Hrest. lia. }
  split; intros Hin.
  - apply Z.le_antisymm.
    + apply max_map_le; [lia|]. intros s Hs. apply Hother; [exact Hs|].
      intros ->. contradiction.
    + destruct (max_attained a ltac:(lia)) as [H|H]; [|contradiction].
      pose proof (max_map_ge f a _ H) as Hge. rewrite Hpeak in Hge. lia.
  - apply Z.le_antisymm.
    + apply max_map_le; [lia|]. intros s Hs.
      destruct (Z.eq_dec s (- Pydub.max a)%Z) as [->|Hne].
      * rewrite Hneg. lia.
      * pose proof (Hother s Hs Hne). lia.
    + pose proof (max_map_ge f a _ Hin) as Hge. rewrite Hneg in Hge. lia.
Qed.

(** The sum of the two loud crowds clips at full scale and is brought
    down by the guard; the sum of the two quiet ones passes it; the sum
    of the two low ones clips at the negative end of the range. *)
Example loud_overlay_peak :
  padded_overlay loud_agree loud_disagree = [32767; -1]%Z /\
  Pydub.max (padded_overlay loud_agree loud_disagree) = 32767%Z.
Proof. split; reflexivity. Qed.

Example quiet_overlay_peak :
  padded_overlay quiet_agree quiet_disagree = [150; -100]%Z /\
  Pydub.max (padded_overlay quiet_agree quiet_disagree) = 150%Z.
Proof. split; reflexivity. Qed.

Example low_overlay_peak :
  padded_overlay low_agree low_disagree = [-32768; 1]%Z /\
  Pydub.max (padded_overlay low_agree low_disagree) = 32768%Z.
Proof. split; reflexivity. Qed.

(** C3.  When the peak of the overlaid sum does not exceed -1 dBFS,
    [mix_agree_disagree_crowds a b] returns the sum as it is.  When it
    does, the sum is normalized: every sample is multiplied by
    [minus_1_dBFS / peak] and rounded down.  -1 dBFS lies strictly
    between the sample values 29204 and 29205, so a positive peak sample
    becomes 29204, which is below -1 dBFS, and a negative peak sample
    becomes -29205, which is above it.  The peak of the result is at most
    -1 dBFS unless the sum holds its peak as a negative sample, and it
    never exceeds 29205. *)
Theorem mix_peak_guard (a b : AudioSegment) :
  (at_most (max_dBFS (padded_overlay a b)) (-1) ->
   mix_agree_disagree_crowds a b = padded_overlay a b /\
   at_most (max_dBFS (mix_agree_disagree_crowds a b)) (-1)) /\
  (exceeds (max_dBFS (padded_overlay a b)) (-1) ->
   mix_agree_disagree_crowds a b = normalize (padded_overlay a b) 1 /\
   mix_agree_disagree_crowds a b =
     map (fun s => Zfloor (IZR s * (minus_1_dBFS
                                    / IZR (Pydub.max (padded_overlay a b)))))
         (padded_overlay a b) /\
   (~ In (- Pydub.max (padded_overlay a b))%Z (padded_overlay a b) ->
    Pydub.max (mix_agree_disagree_crowds a b) = 29204%Z /\
    at_most (max_dBFS (mix_agree_disagree_crowds a b)) (-1)) /\
   (In (- Pydub.max (padded_overlay a b))%Z (padded_overlay a b) ->
    Pydub.max (mix_agree_disagree_crowds a b) = 29205%Z /\
    exceeds (max_dBFS (mix_agree_disagree_crowds a b)) (-1))) /\
  (Pydub.max (mix_agree_disagree_crowds a b) <= 29205)%Z /\
  29204 < minus_1_dBFS < 29205.
Proof.
  rewrite mix_guard.
  destruct (exceeds_dec (max_dBFS (padded_overlay a b)) (-1)) as [Hgt|Hle].
  - pose proof (proj1 (exceeds_minus_1_sample _) Hgt) as HP.
    pose proof (max_in_range _ (padded_overlay_in_range a b)) as HP'.
    destruct (max_normalize (padded_overlay a b) (conj HP HP'))
      as [Hpos Hneg].
    split; [intros Hle; apply not_exceeds in Hle; contradiction|].
    split.
    + intros _. split; [reflexivity|].
      split; [apply normalize_floor; lia|].
      split; intros Hin.
      * split; [now apply Hpos|]. apply not_exceeds.
        rewrite exceeds_minus_1_sample, (Hpos Hin). lia.
      * split; [now apply Hneg|].
        rewrite exceeds_minus_1_sample, (Hneg Hin). lia.
    + split; [|apply minus_1_dBFS_value].
      destruct (in_dec Z.eq_dec (- Pydub.max (padded_overlay a b))%Z
                       (padded_overlay a b)) as [Hin|Hin].
      * rewrite (Hneg Hin). lia.
      * rewrite (Hpos Hin). lia.
  - split; [intros _; split; [reflexivity | now apply not_exceeds]|].
    split; [intros Hgt; contradiction|].
    split; [|apply minus_1_dBFS_value].
    rewrite exceeds_minus_1_sample in Hle. lia.
Qed.

Lemma mix_peak_guard_witness :
  (at_most (max_dBFS (padded_overlay quiet_agree quiet_disagree)) (-1) /\
   mix_agree_disagree_crowds quiet_agree quiet_disagree
   = padded_overlay quiet_agree quiet_disagree) /\
  (exceeds (max_dBFS (padded_overlay loud_agree loud_disagree)) (-1) /\
   ~ In (- Pydub.max (padded_overlay loud_agree loud_disagree))%Z
        (padded_overlay loud_agree loud_disagree) /\
   Pydub.max (mix_agree_disagree_crowds loud_agree loud_disagree) = 29204%Z) /\
  (exceeds (max_dBFS (padded_overlay low_agree low_disagree)) (-1) /\
   In (- Pydub.max (padded_overlay low_agree low_disagree))%Z
      (padded_overlay low_agree low_disagree) /\
   Pydub.max (mix_agree_disagree_crowds low_agree low_disagree) = 29205%Z).
Proof.
  assert (Hquiet : at_most (max_dBFS (padded_overlay quiet_agree quiet_disagree)) (-1)).
  { apply not_exceeds. rewrite exceeds_minus_1_sample.
    rewrite (proj2 quiet_overlay_peak). lia. }
  assert (Hloud : exceeds (max_dBFS (padded_overlay loud_agree loud_disagree)) (-1)).
  { apply exceeds_minus_1_sample. rewrite (proj2 loud_overlay_peak). lia. }
  assert (Hlow : exceeds (max_dBFS (padded_overlay low_agree low_disagree)) (-1)).
  { apply exceeds_minus_1_sample. rewrite (proj2 low_overlay_peak). lia. }
  assert (Hloud_in : ~ In (- Pydub.max (padded_overlay loud_agree loud_disagree))%Z
                          (padded_overlay loud_agree loud_disagree)).
  { rewrite (proj2 loud_overlay_peak), (proj1 loud_overlay_peak).
    simpl. intros [H|[H|H]]; [discriminate | discriminate | exact H]. }
  assert (Hlow_in : In (- Pydub.max (padded_overlay low_agree low_disagree))%Z
                       (padded_overlay low_agree low_disagree)).
  { rewrite (proj2 low_overlay_peak), (proj1 low_overlay_peak).
    simpl. now left. }
  split; [split; [exact Hquiet|]|split].
  - apply (proj1 (mix_peak_guard quiet_agree quiet_disagree) Hquiet).
  - split; [exact Hloud|]. split; [exact Hloud_in|].
    apply (proj1 (proj2 (mix_peak_guard loud_agree loud_disagree)) Hloud).
    exact Hloud_in.
  - split; [exact Hlow|]. split; [exact Hlow_in|].
    apply (proj1 (proj2 (mix_peak_guard low_agree low_disagree)) Hlow).
    exact Hlow_in.
Defined.

(** C3, as the claim has it, fails on the two low crowds: their
    overlaid sum clips at -32768, the normalization rounds the scaled
    peak down to -29205, and the peak level of the mix is above
    -1 dBFS. *)
Lemma mix_peak_above_minus_1_dBFS :
  mix_agree_disagree_crowds low_agree low_disagree = [-29205; 0]%Z /\
  exceeds (max_dBFS (mix_agree_disagree_crowds low_agree low_disagree)) (-1).
Proof.
  assert (Hlow : exceeds (max_dBFS (padded_overlay low_agree low_disagree)) (-1)).
  { apply exceeds_minus_1_sample. rewrite (proj2 low_overlay_peak). lia. }
  assert (E : mix_agree_disagree_crowds low_agree low_disagree = [-29205; 0]%Z).
  { rewrite mix_guard.
    destruct (exceeds_dec _ _) as [_|Hn]; [|contradiction].
    rewrite normalize_floor by (rewrite (proj2 low_overlay_peak); lia).
    rewrite (proj2 low_overlay_peak), (proj1 low_overlay_peak).
    pose proof minus_1_dBFS_value as [HT HT'].
    cbn [map]. f_equal; [|f_equal].
    - apply Zfloor_eq. lra.
    - apply Zfloor_eq. lra. }
  split; [exact E|].
  rewrite E. apply exceeds_minus_1_sample. simpl. lia.
Qed.

(** C5.  [mix_agree_disagree_crowds a b] lasts as long as the longer of
    [a] and [b]: each input is brought to that duration by silence at
    its end (the longer one is left as it is), and the result is the
    overlay of the two padded buffers, normalized or not. *)
Theorem mix_duration (a b : AudioSegment) :
  let max_length := Nat.max (len a) (len b) in
  len (mix_agree_disagree_crowds a b) = max_length /\
  pad_to max_length a = append a (silent (max_length - len a)) /\
  pad_to max_length b = append b (silent (max_length - len b)) /\
  len (pad_to max_length a) = max_length /\
  len (pad_to max_length b) = max_length /\
  ((len b <= len a)%nat -> pad_to max_length a = a) /\
  ((len a <= len b)%nat -> pad_to max_length b = b) /\
  (mix_agree_disagree_crowds a b
     = overlay (pad_to max_length a) (pad_to max_length b) \/
   mix_agree_disagree_crowds a b
     = normalize (overlay (pad_to max_length a) (pad_to max_length b)) 1).
Proof.
  intros max_length.
  split; [apply len_mix|].
  split; [reflexivity|]. split; [reflexivity|].
  split; [apply len_pad_to; lia|]. split; [apply len_pad_to; lia|].
  assert (Hpad : forall c : AudioSegment,
             (max_length <= len c)%nat -> pad_to max_length c = c).
  { intros c Hc. unfold pad_to.
    replace (max_length - len c)%nat with 0%nat by lia.
    unfold append, silent. simpl. apply app_nil_r. }
  split; [intros H; apply Hpad; lia|].
  split; [intros H; apply Hpad; lia|].
  rewrite mix_guard. fold (padded_overlay a b).
  destruct (exceeds_dec _ _); [right | left]; reflexivity.
Qed.

Lemma mix_duration_witness :
  (len loud_agree <= len loud_disagree)%nat /\
  len (mix_agree_disagree_crowds loud_agree loud_disagree) = 2%nat /\
  pad_to 2 loud_agree = append loud_agree (silent 1) /\
  pad_to 2 loud_disagree = loud_disagree.
Proof.
  assert (H : (len loud_agree <= len loud_disagree)%nat) by (simpl; lia).
  pose proof (mix_duration loud_agree loud_disagree)
    as (Hlen & Ha & _ & _ & _ & _ & Hb & _).
  split; [exact H|]. split; [exact Hlen|]. split; [exact Ha | exact (Hb H)].
Defined.

(* ================================================================== *)
(** ** Voice counts *)

Lemma py_round_floor (x : Q) :
  (Qfloor x <= py_round x <= Qfloor x + 1)%Z.
Proof.
  unfold py_round. cbv zeta.
  destruct (Qcompare _ _); [destruct (Z.even _)| |]; lia.
Qed.

Lemma py_round_Z (n : Z) : py_round (inject_Z n) = n.
Proof.
  unfold py_round. cbv zeta. rewrite Qfloor_Z.
  destruct (Qcompare_spec (inject_Z n - inject_Z n) (1 # 2)) as [H|H|H];
    auto; exfalso.
  - assert (E : (inject_Z n - inject_Z n == 0)%Q) by ring.
    rewrite E in H. discriminate H.
  - assert (E : (inject_Z n - inject_Z n == 0)%Q) by ring.
    rewrite E in H. discriminate H.
Qed.

Lemma py_round_bounds (x : Q) (n : Z) :
  (0 <= x)%Q -> (x <= inject_Z n)%Q -> (0 <= py_round x <= n)%Z.
Proof.
  intros H0 Hn.
  pose proof (py_round_floor x) as [Hlo Hhi].
  pose proof (Qfloor_resp_le _ _ H0) as Hf0.
  change (Qfloor 0) with 0%Z in Hf0.
  pose proof (Qfloor_resp_le _ _ Hn) as Hfn. rewrite Qfloor_Z in Hfn.
  split; [lia|].
  destruct (Z.eq_dec (Qfloor x) n) as [E|NE]; [|lia].
  unfold py_round. cbv zeta. rewrite E.
  destruct (Qcompare_spec (x - inject_Z n) (1 # 2)) as [H|H|H]; try lia.
  - exfalso. Lqa.lra.
  - exfalso. Lqa.lra.
Qed.

Example py_round_ties :
  py_round (1 # 2) = 0%Z /\ py_round (3 # 2) = 2%Z /\ py_round (5 # 2) = 2%Z /\
  py_round (249 # 100) = 2%Z /\ py_round (251 # 100) = 3%Z.
Proof. repeat split; reflexivity. Qed.

Example agree_count_97 :
  agree_count NUM_VOICES 97 = 97%Z /\
  disagree_count NUM_VOICES (agree_count NUM_VOICES 97) = 3%Z /\
  agree_count NUM_VOICES 50 = 50%Z /\ agree_count NUM_VOICES 0 = 0%Z.
Proof. repeat split; reflexivity. Qed.

(** C4.  For a percentage [p] in [0, 100] and a total of [N] voices the
    counts [round(N * p / 100)] and [N] minus it add up to [N]; for a
    total that is not negative both counts lie in [0, N].  The pipeline
    computes the counts of both populations of a record this way, with
    [N = NUM_VOICES]. *)
Theorem voice_counts_sum (N : Z) (p : Q) :
  (0 <= p)%Q -> (p <= 100)%Q ->
  (agree_count N p + disagree_count N (agree_count N p) = N)%Z /\
  ((0 <= N)%Z ->
   (0 <= agree_count N p <= N)%Z /\
   (0 <= disagree_count N (agree_count N p) <= N)%Z).
Proof.
  intros H0 H100.
  split; [unfold disagree_count; lia|].
  intros HN.
  assert (Hb : (0 <= agree_count N p <= N)%Z).
  { unfold agree_count. apply py_round_bounds.
    - assert (HNq : (0 <= inject_Z N)%Q)
        by (rewrite Zle_Qle in HN; exact HN).
      apply Qle_shift_div_l; [reflexivity|].
      setoid_replace (0 * 100)%Q with 0%Q by ring.
      apply Qmult_le_0_compat; assumption.
    - assert (HNq : (0 <= inject_Z N)%Q)
        by (rewrite Zle_Qle in HN; exact HN).
      apply Qle_shift_div_r; [reflexivity|].
      apply Qmult_le_compat_nonneg; split;
        [exact HNq | apply Qle_refl | exact H0 | exact H100]. }
  split; [exact Hb | unfold disagree_count; lia].
Qed.

Lemma voice_counts_sum_witness :
  (0 <= 97)%Q /\ (97 <= 100)%Q /\
  (agree_count 100 97 + disagree_count 100 (agree_count 100 97) = 100)%Z /\
  ((0 <= 100)%Z ->
   (0 <= agree_count 100 97 <= 100)%Z /\
   (0 <= disagree_count 100 (agree_count 100 97) <= 100)%Z).
Proof.
  split; [discriminate|]. split; [discriminate|].
  apply (voice_counts_sum 100 97); discriminate.
Defined.

(* ================================================================== *)
(** ** The pipeline *)

Example decimal_float_examples :
  decimal_float "97" = Some (Finite (97 + 0 / 1)%Q) /\
  decimal_float "n/a" = None /\ decimal_float "" = None /\
  decimal_float "." = None /\
  decimal_float "nan" = Some NaN /\
  decimal_float "inf" = Some (Infinity false) /\
  decimal_float "97.5" = Some (Finite (97 + 5 / 10)%Q).
Proof. repeat split; reflexivity. Qed.

(** The counts of a finite percentage, of an infinity and of a value
    that is not a number. *)
Lemma count_of_cases (x : pyfloat) :
  count_of NUM_VOICES x =
  match x with
  | Finite q =>
      if Qle_bool overflow_threshold (Qabs (100 * q))
      then inl OverflowError
      else inr (agree_count NUM_VOICES q)
  | Infinity _ => inl OverflowError
  | NaN => inl ValueError
  end.
Proof.
  destruct x as [q|negative|]; [|reflexivity|reflexivity].
  unfold count_of, int_times, to_double, NUM_VOICES.
  change (inject_Z 100) with 100%Q.
  destruct (Qle_bool overflow_threshold (Qabs (100 * q))); reflexivity.
Qed.

Lemma count_of_percentage (p : Q) :
  (0 <= p)%Q -> (p <= 100)%Q ->
  count_of NUM_VOICES (Finite p) = inr (agree_count NUM_VOICES p).
Proof.
  intros H0 H100. rewrite count_of_cases.
  destruct (Qle_bool overflow_threshold (Qabs (100 * p))) eqn:E;
    [exfalso | reflexivity].
  apply Qle_bool_iff in E.
  assert (Hp : (0 <= 100 * p)%Q) by Lqa.lra.
  rewrite (Qabs_pos _ Hp) in E.
  assert (Ht : (10001 <= overflow_threshold)%Q)
    by (apply Qle_bool_imp_le; vm_compute; reflexivity).
  Lqa.lra.
Qed.

Lemma round_count (total : Z) (x : pyfloat) (w : World) :
  round (over_100 (int_times total x)) w
  = match count_of total x with
    | inl e => Raise e w
    | inr count => Return count w
    end.
Proof.
  unfold count_of, round.
  destruct (over_100 (int_times total x)); reflexivity.
Qed.

Lemma synthesize_crowd (base : AudioSegment) (count : Z) (w : World) :
  (count >? 0)%Z = true ->
  synthesize base (Z.to_nat count) w =
  Return (fst (crowd_or_silence base count (random w)))
         (mkWorld (snd (crowd_or_silence base count (random w)))
                  (exported w) (synthesized w ++ calls base count)).
Proof.
  intros H. unfold synthesize, crowd_or_silence, calls. rewrite H.
  destruct (create_crowd_audio base (Z.to_nat count) true (random w)).
  reflexivity.
Qed.

Lemma and_then_return {A B} (m : Pipe A) (k : A -> Pipe B) w a w' :
  m w = Return a w' -> and_then m k w = k a w'.
Proof. intros H. unfold and_then. now rewrite H. Qed.

Lemma and_then_raise {A B} (m : Pipe A) (k : A -> Pipe B) w e w' :
  m w = Raise e w' -> and_then m k w = Raise e w'.
Proof. intros H. unfold and_then. now rewrite H. Qed.

(** A crowd made for the mix (lines 192-193, 222-223). *)
Lemma crowd_for_mix (base : AudioSegment) (count : Z) (w : World) :
  (if (count >? 0)%Z then synthesize base (Z.to_nat count)
   else pure (silent (len base))) w =
  Return (fst (crowd_or_silence base count (random w)))
         (mkWorld (snd (crowd_or_silence base count (random w)))
                  (exported w) (synthesized w ++ calls base count)).
Proof.
  destruct (count >? 0)%Z eqn:E; [now apply synthesize_crowd|].
  unfold crowd_or_silence, calls, pure. rewrite E. cbn [fst snd].
  rewrite app_nil_r. now destruct w.
Qed.

(** A crowd made and exported (lines 170-188, 201-218). *)
Lemma crowd_exported (file : string) (base : AudioSegment) (count : Z)
    (w : World) :
  (if (count >? 0)%Z
   then crowd <-- synthesize base (Z.to_nat count) ;;; export file crowd
   else export file (silent (len base))) w =
  Return tt
    (mkWorld (snd (crowd_or_silence base count (random w)))
             (exported w ++ [(file, fst (crowd_or_silence base count (random w)))])
             (synthesized w ++ calls base count)).
Proof.
  destruct (count >? 0)%Z eqn:E.
  - erewrite and_then_return by (now apply synthesize_crowd). reflexivity.
  - unfold crowd_or_silence, calls, export. rewrite E. cbn [fst snd].
    now rewrite app_nil_r.
Qed.

(** Lines 170-195 and 200-225, run. *)
Lemma population_outputs_result (index : nat) (population : string)
    (agree_base disagree_base : AudioSegment) (agree disagree : Z) (w : World) :
  population_outputs index population agree_base disagree_base agree disagree w
  = Return tt (population_result index population agree_base disagree_base
                                 agree disagree w).
Proof.
  unfold population_outputs, population_result.
  erewrite and_then_return by apply crowd_exported.
  erewrite and_then_return by apply crowd_exported.
  erewrite and_then_return by apply crowd_for_mix.
  erewrite and_then_return by apply crowd_for_mix.
  cbn [random exported synthesized export].
  destruct (crowd_or_silence agree_base agree (random w)) as [c1 g1].
  cbn [fst snd].
  destruct (crowd_or_silence disagree_base disagree g1) as [c2 g2].
  cbn [fst snd].
  destruct (crowd_or_silence agree_base agree g2) as [c3 g3].
  cbn [fst snd].
  destruct (crowd_or_silence disagree_base disagree g3) as [c4 g4].
  cbn [fst snd]. unfold export. cbn [random exported synthesized].
  rewrite <- !app_assoc. reflexivity.
Qed.

Lemma population_result_fields (index : nat) (population : string)
    (agree_base disagree_base : AudioSegment) (agree disagree : Z) (w : World) :
  let c1 := crowd_or_silence agree_base agree (random w) in
  let c2 := crowd_or_silence disagree_base disagree (snd c1) in
  let c3 := crowd_or_silence agree_base agree (snd c2) in
  let c4 := crowd_or_silence disagree_base disagree (snd c3) in
  population_result index population agree_base disagree_base agree disagree w
  = mkWorld (snd c4)
      (exported w ++
         [(output_file index (population ++ "_agree"), fst c1);
          (output_file index (population ++ "_disagree"), fst c2);
          (output_file index (population ++ "_both"),
           mix_agree_disagree_crowds (fst c3) (fst c4))])
      (synthesized w ++
         calls agree_base agree ++ calls disagree_base disagree ++
         calls agree_base agree ++ calls disagree_base disagree).
Proof.
  cbv zeta. unfold population_result.
  destruct (crowd_or_silence agree_base agree (random w)) as [c1 g1].
  cbn [fst snd].
  destruct (crowd_or_silence disagree_base disagree g1) as [c2 g2].
  cbn [fst snd].
  destruct (crowd_or_silence agree_base agree g2) as [c3 g3].
  cbn [fst snd].
  destruct (crowd_or_silence disagree_base disagree g3) as [c4 g4].
  reflexivity.
Qed.

(** [generate_audio_for_issue], run: lines 132-143 raise or deliver the
    two agree counts; then the two utterances are asked for, and with
    both at hand the outputs of "sci" and of "pub" are made. *)
Lemma generate_audio_for_issue_run
    (float : string -> option pyfloat)
    (generate_tts : string -> string -> string -> option AudioSegment)
    (row : Row) (index : nat) (w : World) :
  generate_audio_for_issue float generate_tts row index w =
  match record_counts float row with
  | inl e => Raise e w
  | inr (sci_agree, pub_agree) =>
      match generate_tts ("I believe " ++ statement row)%string
              (TEMP_DIR ++ "/" ++ issue_name row ++ "_agree.mp3")%string
              "com"%string with
      | None => Return false w
      | Some agree_base =>
          match generate_tts ("I don't believe " ++ statement row)%string
                  (TEMP_DIR ++ "/" ++ issue_name row ++ "_disagree.mp3")%string
                  "co.uk"%string with
          | None => Return false w
          | Some disagree_base =>
              Return true
                (population_result index "pub" agree_base disagree_base
                   pub_agree (disagree_count NUM_VOICES pub_agree)
                   (population_result index "sci" agree_base disagree_base
                      sci_agree (disagree_count NUM_VOICES sci_agree) w))
          end
      end
  end.
Proof.
  unfold generate_audio_for_issue, to_float, record_counts, issue_name.
  cbv zeta.
  destruct (float (scientific_consensus row)) as [sci|]; [|reflexivity].
  destruct (float (public_agreement row)) as [pub|]; [|reflexivity].
  erewrite and_then_return by reflexivity.
  erewrite and_then_return by reflexivity.
  unfold and_then at 1. rewrite round_count.
  destruct (count_of NUM_VOICES sci) as [e|sci_agree]; [reflexivity|].
  unfold and_then at 1. rewrite round_count.
  destruct (count_of NUM_VOICES pub) as [e|pub_agree]; [reflexivity|].
  destruct (generate_tts _ _ "com"%string) as [agree_base|]; [|reflexivity].
  destruct (generate_tts _ _ "co.uk"%string) as [disagree_base|];
    [|reflexivity].
  erewrite and_then_return by apply population_outputs_result.
  erewrite and_then_return by apply population_outputs_result.
  reflexivity.
Qed.

(** A record whose counts are integers and whose utterances are
    delivered. *)
Lemma generate_audio_for_issue_processed
    (float : string -> option pyfloat)
    (generate_tts : string -> string -> string -> option AudioSegment)
    (row : Row) (index : nat) (w : World) (sci_agree pub_agree : Z)
    (agree_base disagree_base : AudioSegment) :
  record_counts float row = inr (sci_agree, pub_agree) ->
  generate_tts ("I believe " ++ statement row)%string
    (TEMP_DIR ++ "/" ++ issue_name row ++ "_agree.mp3")%string "com"%string
    = Some agree_base ->
  generate_tts ("I don't believe " ++ statement row)%string
    (TEMP_DIR ++ "/" ++ issue_name row ++ "_disagree.mp3")%string
    "co.uk"%string = Some disagree_base ->
  generate_audio_for_issue float generate_tts row index w =
  Return true
    (population_result index "pub" agree_base disagree_base
       pub_agree (disagree_count NUM_VOICES pub_agree)
       (population_result index "sci" agree_base disagree_base
          sci_agree (disagree_count NUM_VOICES sci_agree) w)).
Proof.
  intros Hc Ha Hd. rewrite generate_audio_for_issue_run, Hc, Ha, Hd.
  reflexivity.
Qed.

(** A record on which lines 132-143 raise. *)
Lemma generate_audio_for_issue_raises
    (float : string -> option pyfloat)
    (generate_tts : string -> string -> string -> option AudioSegment)
    (row : Row) (index : nat) (w : World) (e : exn) :
  record_counts float row = inl e ->
  generate_audio_for_issue float generate_tts row index w = Raise e w.
Proof. intros H. now rewrite generate_audio_for_issue_run, H. Qed.

(** A record with a percentage that [float] rejects. *)
Lemma record_counts_malformed
    (float : string -> option pyfloat) (row : Row) :
  float (scientific_consensus row) = None \/
  float (public_agreement row) = None ->
  record_counts float row = inl ValueError.
Proof.
  intros H. unfold record_counts.
  destruct (float (scientific_consensus row)) as [sci|]; [|reflexivity].
  destruct H as [H|H]; [discriminate|]. rewrite H. reflexivity.
Qed.

Lemma generate_audio_for_issue_malformed
    (float : string -> option pyfloat)
    (generate_tts : string -> string -> string -> option AudioSegment)
    (row : Row) (index : nat) (w : World) :
  float (scientific_consensus row) = None \/
  float (public_agreement row) = None ->
  generate_audio_for_issue float generate_tts row index w = Raise ValueError w.
Proof.
  intros H. apply generate_audio_for_issue_raises.
  now apply record_counts_malformed.
Qed.

(** A record whose first utterance the speech engine fails to deliver
    (lines 157-158): the record is given up, nothing is raised. *)
Lemma generate_audio_for_issue_no_speech
    (float : string -> option pyfloat)
    (generate_tts : string -> string -> string -> option AudioSegment)
    (row : Row) (index : nat) (w : World) :
  well_formed float row ->
  generate_tts ("I believe " ++ statement row)%string
    (TEMP_DIR ++ "/" ++ issue_name row ++ "_agree.mp3")%string "com"%string
    = None ->
  generate_audio_for_issue float generate_tts row index w = Return false w.
Proof.
  intros [[sci_agree pub_agree] Hc] Ha.
  rewrite generate_audio_for_issue_run, Hc, Ha. reflexivity.
Qed.


(* ================================================================== *)
(** ** Durations and random draws of a crowd *)

Lemma jittered_copies_state base n g :
  snd (jittered_copies base true n g) = mkState (tape g) (pos g + n).
Proof.
  revert g. induction n as [|n IH]; intros g.
  - simpl. destruct g as [t p]. simpl. f_equal. lia.
  - cbn [jittered_copies]. unfold bind. rewrite varied_true.
    specialize (IH (snd (randint 0 30 g))).
    destruct (jittered_copies base true n (snd (randint 0 30 g))) as [cs g2].
    cbn [snd fst] in *. rewrite IH. simpl. f_equal. lia.
Qed.

Lemma create_crowd_audio_len base v g :
  (1 <= v)%nat ->
  len (fst (create_crowd_audio base v true g))
  = (fst (randint 0 30 g) + len base)%nat.
Proof.
  intros Hv. destruct (Nat.eq_dec v 1) as [->|Hne].
  - apply len_varied_true.
  - rewrite create_crowd_audio_layers by lia. cbv zeta. cbn [fst].
    rewrite len_apply_gain, len_overlay_layers. apply len_varied_true.
Qed.

Lemma create_crowd_audio_state base v g :
  (1 <= v)%nat ->
  snd (create_crowd_audio base v true g)
  = mkState (tape g) (pos g + Nat.min (Nat.sqrt v) 50).
Proof.
  intros Hv. destruct (Nat.eq_dec v 1) as [->|Hne].
  - change (create_crowd_audio base 1 true g) with (varied base true g).
    rewrite varied_true. simpl. f_equal. lia.
  - pose proof (num_layers_pos v Hv) as HL.
    rewrite create_crowd_audio_layers by lia. cbv zeta. cbn [snd].
    rewrite jittered_copies_state, varied_true, <- num_layers_isqrt.
    simpl. f_equal. lia.
Qed.

Lemma crowd_or_silence_len base count g :
  (0 < count)%Z ->
  len (fst (crowd_or_silence base count g))
  = (fst (randint 0 30 g) + len base)%nat.
Proof.
  intros H. unfold crowd_or_silence.
  replace (count >? 0)%Z with true by (symmetry; apply Z.gtb_lt; lia).
  apply create_crowd_audio_len. lia.
Qed.

Lemma crowd_or_silence_state base count g :
  (0 < count)%Z ->
  snd (crowd_or_silence base count g)
  = mkState (tape g) (pos g + Nat.min (Nat.sqrt (Z.to_nat count)) 50).
Proof.
  intros H. unfold crowd_or_silence.
  replace (count >? 0)%Z with true by (symmetry; apply Z.gtb_lt; lia).
  apply create_crowd_audio_state. lia.
Qed.

Lemma calls_length base count : (List.length (calls base count) <= 1)%nat.
Proof. unfold calls. destruct (count >? 0)%Z; simpl; lia. Qed.

(* ================================================================== *)
(** ** The batch driver *)

(** A speech engine that never answers. *)
Lemma main_without_speech
    (float : string -> option pyfloat) (data : list Row) (w : World) :
  Forall (well_formed float) data ->
  main float (fun _ _ _ => None) data w = Return (0%nat, List.length data) w.
Proof.
  intros H. unfold main.
  assert (Hp : forall index,
             process float (fun _ _ _ => None) data index 0 w
             = Return 0%nat w).
  { induction H as [|row rest Hrow _ IH]; intros index; simpl; auto.
    erewrite and_then_return
      by (now apply generate_audio_for_issue_no_speech).
    apply IH. }
  erewrite and_then_return by apply Hp. reflexivity.
Qed.

Lemma row_97_50_counts : record_counts decimal_float row_97_50 = inr (97, 50)%Z.
Proof. vm_compute. reflexivity. Qed.

Lemma row_97_50_processed :
  generate_audio_for_issue decimal_float speaking row_97_50 0 fresh =
  Return true
    (population_result 0 "pub" two_samples two_samples 50 50
       (population_result 0 "sci" two_samples two_samples 97 3 fresh)).
Proof.
  apply (generate_audio_for_issue_processed decimal_float speaking
           row_97_50 0 fresh 97 50 two_samples two_samples);
    [exact row_97_50_counts | reflexivity | reflexivity].
Qed.

(** C7.  The batch [row_malformed; row_97_50]: the first record's
    percentage "n/a" is no number.  [float] raises [ValueError] in
    [generate_audio_for_issue], nothing catches it, and [main] ends with
    the exception: no count is reported and the second record, which
    alone is processed with its six files, is never reached.  Records
    whose utterance cannot be synthesized are skipped instead, and the
    run goes on to report 0 of 2. *)
Theorem main_aborts_on_malformed_record :
  decimal_float (scientific_consensus row_malformed) = None /\
  main decimal_float speaking [row_malformed; row_97_50] fresh
    = Raise ValueError fresh /\
  (exists w : World,
     main decimal_float speaking [row_97_50] fresh = Return (1%nat, 1%nat) w /\
     List.length (exported w) = 6%nat) /\
  main decimal_float (fun _ _ _ => None) [row_malformed; row_97_50] fresh
    = Raise ValueError fresh /\
  main decimal_float (fun _ _ _ => None) [row_97_50; row_97_50] fresh
    = Return (0%nat, 2%nat) fresh.
Proof.
  split; [reflexivity|].
  split.
  { unfold main, process. apply and_then_raise, and_then_raise.
    apply generate_audio_for_issue_malformed. left. reflexivity. }
  split.
  { eexists. split.
    - unfold main, process.
      erewrite and_then_return.
      2:{ erewrite and_then_return by exact row_97_50_processed.
          reflexivity. }
      reflexivity.
    - rewrite !population_result_fields. cbv zeta. cbn [exported].
      rewrite !length_app. reflexivity. }
  split.
  { unfold main, process. apply and_then_raise, and_then_raise.
    apply generate_audio_for_issue_malformed. left. reflexivity. }
  apply (main_without_speech decimal_float [row_97_50; row_97_50] fresh).
  repeat constructor; exists (97, 50)%Z; exact row_97_50_counts.
Qed.

(* ================================================================== *)
(** ** The outputs of a record *)

(** C6, as the code has it.  A processed record has two percentages
    that [float] reads and [round] turns into counts, and two
    utterances: "I believe ..." spoken with the voice "com" is the base
    of the agree crowds, "I don't believe ..." spoken with "co.uk" the
    base of the disagree crowds.  The world is then the one
    [population_result] describes, for "sci" and then for "pub".  For
    each population four crowds are made one after the other, each by a
    call of [create_crowd_audio] when its count is positive and as plain
    silence otherwise: the first agree and disagree crowds are exported
    as they are, and the "both" output is the mix of the third and
    fourth, made anew from the random source as the first two left it.
    That is two calls for every positive count: at most eight for a
    record. *)
Theorem issue_outputs_fresh_mix
    (float : string -> option pyfloat)
    (generate_tts : string -> string -> string -> option AudioSegment)
    (row : Row) (index : nat) (w w' : World) :
  generate_audio_for_issue float generate_tts row index w = Return true w' ->
  (exists (sci_consensus pub_agreement : pyfloat) (sci_agree pub_agree : Z)
          (agree_base disagree_base : AudioSegment),
     float (scientific_consensus row) = Some sci_consensus /\
     float (public_agreement row) = Some pub_agreement /\
     count_of NUM_VOICES sci_consensus = inr sci_agree /\
     count_of NUM_VOICES pub_agreement = inr pub_agree /\
     generate_tts ("I believe " ++ statement row)%string
       (TEMP_DIR ++ "/" ++ issue_name row ++ "_agree.mp3")%string
       "com"%string = Some agree_base /\
     generate_tts ("I don't believe " ++ statement row)%string
       (TEMP_DIR ++ "/" ++ issue_name row ++ "_disagree.mp3")%string
       "co.uk"%string = Some disagree_base /\
     w' = population_result index "pub" agree_base disagree_base
            pub_agree (disagree_count NUM_VOICES pub_agree)
            (population_result index "sci" agree_base disagree_base
               sci_agree (disagree_count NUM_VOICES sci_agree) w)) /\
  (List.length (exported w') = List.length (exported w) + 6)%nat /\
  (List.length (synthesized w') <= List.length (synthesized w) + 8)%nat /\
  (forall p : Q, (0 <= p)%Q -> (p <= 100)%Q ->
     count_of NUM_VOICES (Finite p) = inr (agree_count NUM_VOICES p)) /\
  forall (population : string) (agree_base disagree_base : AudioSegment)
         (agree disagree : Z) (w0 : World),
    let c1 := crowd_or_silence agree_base agree (random w0) in
    let c2 := crowd_or_silence disagree_base disagree (snd c1) in
    let c3 := crowd_or_silence agree_base agree (snd c2) in
    let c4 := crowd_or_silence disagree_base disagree (snd c3) in
    population_result index population agree_base disagree_base
                      agree disagree w0
    = mkWorld (snd c4)
        (exported w0 ++
           [(output_file index (population ++ "_agree"), fst c1);
            (output_file index (population ++ "_disagree"), fst c2);
            (output_file index (population ++ "_both"),
             mix_agree_disagree_crowds (fst c3) (fst c4))])
        (synthesized w0 ++
           calls agree_base agree ++ calls disagree_base disagree ++
           calls agree_base agree ++ calls disagree_base disagree).
Proof.
  intros Hrun.
  assert (Hex :
  (exists (sci_consensus pub_agreement : pyfloat) (sci_agree pub_agree : Z)
          (agree_base disagree_base : AudioSegment),
     float (scientific_consensus row) = Some sci_consensus /\
     float (public_agreement row) = Some pub_agreement /\
     count_of NUM_VOICES sci_consensus = inr sci_agree /\
     count_of NUM_VOICES pub_agreement = inr pub_agree /\
     generate_tts ("I believe " ++ statement row)%string
       (TEMP_DIR ++ "/" ++ issue_name row ++ "_agree.mp3")%string
       "com"%string = Some agree_base /\
     generate_tts ("I don't believe " ++ statement row)%string
       (TEMP_DIR ++ "/" ++ issue_name row ++ "_disagree.mp3")%string
       "co.uk"%string = Some disagree_base /\
     w' = population_result index "pub" agree_base disagree_base
            pub_agree (disagree_count NUM_VOICES pub_agree)
            (population_result index "sci" agree_base disagree_base
               sci_agree (disagree_count NUM_VOICES sci_agree) w))).
  { rewrite generate_audio_for_issue_run in Hrun.
    unfold record_counts in Hrun.
    destruct (float (scientific_consensus row)) as [sci|]; [|discriminate].
    destruct (float (public_agreement row)) as [pub|]; [|discriminate].
    destruct (count_of NUM_VOICES sci) as [e|sci_agree] eqn:Es;
      [discriminate|].
    destruct (count_of NUM_VOICES pub) as [e|pub_agree] eqn:Ep;
      [discriminate|].
    destruct (generate_tts _ _ "com"%string) as [agree_base|];
      [|discriminate].
    destruct (generate_tts _ _ "co.uk"%string) as [disagree_base|];
      [|discriminate].
    exists sci, pub, sci_agree, pub_agree, agree_base, disagree_base.
    split; [reflexivity|]. split; [reflexivity|].
    split; [exact Es|]. split; [exact Ep|].
    split; [reflexivity|]. split; [reflexivity|].
    now inversion Hrun. }
  split; [exact Hex|].
  destruct Hex
    as (sci & pub & sci_agree & pub_agree & agree_base & disagree_base
        & _ & _ & _ & _ & _ & _ & ->).
  rewrite !population_result_fields. cbv zeta. cbn [exported synthesized].
  split; [rewrite !length_app; simpl; lia|].
  split.
  { rewrite !length_app.
    pose proof (calls_length agree_base sci_agree).
    pose proof (calls_length disagree_base
                  (disagree_count NUM_VOICES sci_agree)).
    pose proof (calls_length agree_base pub_agree).
    pose proof (calls_length disagree_base
                  (disagree_count NUM_VOICES pub_agree)).
    lia. }
  split; [apply count_of_percentage|].
  intros. apply population_result_fields.
Qed.

Lemma issue_outputs_fresh_mix_witness :
  generate_audio_for_issue decimal_float speaking row_97_50 0 fresh =
  Return true
    (population_result 0 "pub" two_samples two_samples 50 50
       (population_result 0 "sci" two_samples two_samples 97 3 fresh)) /\
  (exists (sci_consensus pub_agreement : pyfloat) (sci_agree pub_agree : Z)
          (agree_base disagree_base : AudioSegment),
     decimal_float (scientific_consensus row_97_50) = Some sci_consensus /\
     decimal_float (public_agreement row_97_50) = Some pub_agreement /\
     count_of NUM_VOICES sci_consensus = inr sci_agree /\
     count_of NUM_VOICES pub_agreement = inr pub_agree /\
     speaking ("I believe " ++ statement row_97_50)%string
       (TEMP_DIR ++ "/" ++ issue_name row_97_50 ++ "_agree.mp3")%string
       "com"%string = Some agree_base /\
     speaking ("I don't believe " ++ statement row_97_50)%string
       (TEMP_DIR ++ "/" ++ issue_name row_97_50 ++ "_disagree.mp3")%string
       "co.uk"%string = Some disagree_base /\
     
       (population_result 0 "pub" two_samples two_samples 50 50
       (population_result 0 "sci" two_samples two_samples 97 3 fresh))
     = population_result 0 "pub" agree_base disagree_base
            pub_agree (disagree_count NUM_VOICES pub_agree)
            (population_result 0 "sci" agree_base disagree_base
               sci_agree (disagree_count NUM_VOICES sci_agree) fresh)) /\
  (List.length (exported 
       (population_result 0 "pub" two_samples two_samples 50 50
       (population_result 0 "sci" two_samples two_samples 97 3 fresh))) = List.length (exported fresh) + 6)%nat /\
  (List.length (synthesized 
       (population_result 0 "pub" two_samples two_samples 50 50
       (population_result 0 "sci" two_samples two_samples 97 3 fresh))) <= List.length (synthesized fresh) + 8)%nat /\
  (forall p : Q, (0 <= p)%Q -> (p <= 100)%Q ->
     count_of NUM_VOICES (Finite p) = inr (agree_count NUM_VOICES p)) /\
  forall (population : string) (agree_base disagree_base : AudioSegment)
         (agree disagree : Z) (w0 : World),
    let c1 := crowd_or_silence agree_base agree (random w0) in
    let c2 := crowd_or_silence disagree_base disagree (snd c1) in
    let c3 := crowd_or_silence agree_base agree (snd c2) in
    let c4 := crowd_or_silence disagree_base disagree (snd c3) in
    population_result 0 population agree_base disagree_base
                      agree disagree w0
    = mkWorld (snd c4)
        (exported w0 ++
           [(output_file 0 (population ++ "_agree"), fst c1);
            (output_file 0 (population ++ "_disagree"), fst c2);
            (output_file 0 (population ++ "_both"),
             mix_agree_disagree_crowds (fst c3) (fst c4))])
        (synthesized w0 ++
           calls agree_base agree ++ calls disagree_base disagree ++
           calls agree_base agree ++ calls disagree_base disagree).
Proof.
  split; [exact row_97_50_processed|].
  exact (issue_outputs_fresh_mix decimal_float speaking row_97_50 0 fresh _
           row_97_50_processed).
Defined.

(** C6, as the claim has it, fails on the record with 97% and 50% and
    the random source [counting]: [create_crowd_audio] is called eight
    times, not four, and the file "00_sci_both" holds a buffer of
    duration 21 while the mix of the two crowds exported to
    "00_sci_agree" and "00_sci_disagree" has duration 11. *)
Lemma both_is_not_the_mix_of_the_exported_crowds :
  exists (w' : World) (agree_crowd disagree_crowd both : AudioSegment)
         (others : list (string * AudioSegment)),
    generate_audio_for_issue decimal_float speaking row_97_50 0 fresh
      = Return true w' /\
    exported w' =
      (output_file 0 "sci_agree", agree_crowd) ::
      (output_file 0 "sci_disagree", disagree_crowd) ::
      (output_file 0 "sci_both", both) :: others /\
    len (mix_agree_disagree_crowds agree_crowd disagree_crowd) = 11%nat /\
    len both = 21%nat /\
    both <> mix_agree_disagree_crowds agree_crowd disagree_crowd /\
    List.length (synthesized w') = 8%nat.
Proof.
  eexists. eexists. eexists. eexists. eexists.
  split; [exact row_97_50_processed|].
  rewrite !population_result_fields. cbv zeta.
  cbn [exported synthesized fresh random app].
  split; [reflexivity|].
  assert (Hmix : len (mix_agree_disagree_crowds
                        (fst (crowd_or_silence two_samples 97 counting))
                        (fst (crowd_or_silence two_samples 3
                                (snd (crowd_or_silence two_samples 97 counting)))))
                 = 11%nat).
  { rewrite len_mix, !crowd_or_silence_len, !crowd_or_silence_state by lia.
    reflexivity. }
  assert (Hboth : len (mix_agree_disagree_crowds
        (fst (crowd_or_silence two_samples 97
           (snd (crowd_or_silence two_samples 3
              (snd (crowd_or_silence two_samples 97 counting))))))
        (fst (crowd_or_silence two_samples 3
           (snd (crowd_or_silence two_samples 97
              (snd (crowd_or_silence two_samples 3
                 (snd (crowd_or_silence two_samples 97 counting)))))))))
                  = 21%nat).
  { rewrite len_mix, !crowd_or_silence_len, !crowd_or_silence_state by lia.
    reflexivity. }
  split; [exact Hmix|]. split; [exact Hboth|].
  split.
  - intros E. rewrite E, Hmix in Hboth. discriminate.
  - reflexivity.
Qed.

(* ================================================================== *)
(** ** More on the crowd synthesizer *)

Lemma skipn_silent_append (p : nat) (a : AudioSegment) :
  skipn p (append (silent p) a) = a.
Proof.
  unfold append, silent. induction p as [|p IH]; simpl; auto.
Qed.

(** X1.  [add_slight_variation] puts a silence of at most
    [variation_ms] time units before the audio and leaves the audio
    itself as it was; it takes one number from the random source. *)
Theorem add_slight_variation_prefix
    (audio : AudioSegment) (variation_ms : nat) (g : Random.State) :
  exists padding : nat,
    (padding <= variation_ms)%nat /\
    fst (add_slight_variation audio variation_ms g)
      = append (silent padding) audio /\
    len (fst (add_slight_variation audio variation_ms g))
      = (padding + len audio)%nat /\
    skipn padding (fst (add_slight_variation audio variation_ms g)) = audio /\
    Forall (fun s => s = 0%Z)
      (firstn padding (fst (add_slight_variation audio variation_ms g))) /\
    snd (add_slight_variation audio variation_ms g)
      = mkState (tape g) (S (pos g)).
Proof.
  exists (fst (randint 0 variation_ms g)).
  pose proof (randint_range 0 variation_ms g (Nat.le_0_l _)) as [_ Hp].
  split; [exact Hp|].
  split; [reflexivity|].
  unfold add_slight_variation, bind, ret. cbn [fst snd randint].
  split; [now rewrite len_append, len_silent|].
  split; [apply skipn_silent_append|].
  split; [|reflexivity].
  unfold append. rewrite firstn_app.
  replace (firstn _ (silent _)) with
    (silent (0 + tape g (pos g) mod (variation_ms - 0 + 1)))
    by (symmetry; apply firstn_all2; unfold silent; rewrite repeat_length; lia).
  unfold silent at 2. rewrite repeat_length, Nat.sub_diag. simpl firstn.
  rewrite app_nil_r. apply silent_all_zero.
Qed.

Lemma jittered_copies_still base n g :
  snd (jittered_copies base false n g) = g.
Proof.
  revert g. induction n as [|n IH]; intros g; [reflexivity|].
  cbn [jittered_copies]. unfold bind. rewrite varied_false. specialize (IH g).
  destruct (jittered_copies base false n g) as [cs g2]. exact IH.
Qed.

Lemma create_crowd_audio_still base v g :
  snd (create_crowd_audio base v false g) = g /\
  len (fst (create_crowd_audio base v false g)) = len base.
Proof.
  destruct v as [|[|n]].
  - split; [reflexivity | apply len_silent].
  - split; reflexivity.
  - rewrite create_crowd_audio_layers by lia. cbv zeta. cbn [fst snd].
    rewrite varied_false. cbn [fst snd].
    split; [apply jittered_copies_still|].
    now rewrite len_apply_gain, len_overlay_layers.
Qed.

(** X2.  Whatever the crowd size and the flag, the output of
    [create_crowd_audio] lasts at least as long as the base and at most
    30 time units longer, and the call takes at most 50 numbers from the
    random source; without variation it takes none and the output has
    the duration of the base. *)
Theorem create_crowd_audio_extent
    (base : AudioSegment) (v : nat) (add_variation : bool) (g : Random.State) :
  (len base <= len (fst (create_crowd_audio base v add_variation g))
            <= len base + 30)%nat /\
  tape (snd (create_crowd_audio base v add_variation g)) = tape g /\
  (pos g <= pos (snd (create_crowd_audio base v add_variation g))
         <= pos g + 50)%nat /\
  (add_variation = false ->
   snd (create_crowd_audio base v add_variation g) = g /\
   len (fst (create_crowd_audio base v add_variation g)) = len base).
Proof.
  destruct add_variation.
  - destruct v as [|v'].
    + cbn [create_crowd_audio]. unfold ret. cbn [fst snd].
      rewrite len_silent. repeat split; try lia; try discriminate.
    + pose proof (create_crowd_audio_len base (S v') g ltac:(lia)) as Hl.
      pose proof (create_crowd_audio_state base (S v') g ltac:(lia)) as Hs.
      pose proof (randint_range 0 30 g ltac:(lia)) as Hr.
      rewrite Hl, Hs. cbn [tape pos].
      repeat split; try lia; try discriminate.
  - destruct (create_crowd_audio_still base v g) as [Hs Hl].
    rewrite Hs, Hl. repeat split; lia.
Qed.

Lemma db_to_float_db_increase (v : nat) :
  (1 <= v)%nat -> db_to_float (db_increase v) = sqrt (INR v).
Proof.
  intros Hv.
  assert (Hpos : 0 < INR v) by (apply lt_0_INR; lia).
  rewrite <- (Rpower_sqrt (INR v) Hpos).
  unfold db_to_float, db_increase, log10, Rlog, Rpower.
  f_equal. pose proof ln_10_pos. field. lra.
Qed.




Lemma num_layers_small (v : nat) : (1 <= v <= 3)%nat -> num_layers v = 1%nat.
Proof.
  intros H. rewrite num_layers_isqrt.
  assert (E : v = 1%nat \/ v = 2%nat \/ v = 3%nat) by lia.
  destruct E as [-> | [-> | ->]]; reflexivity.
Qed.

(** X4.  A crowd of two or three voices has a single layer: the output
    is one jittered copy of the base, nothing overlaid, with every
    sample multiplied by the square root of the crowd size, cut to the
    16-bit range and rounded down; one number is taken from the random
    source when variation is on. *)
Theorem create_crowd_audio_single_layer
    (base : AudioSegment) (v : nat) (add_variation : bool) (g : Random.State) :
  (2 <= v <= 3)%nat ->
  num_layers v = 1%nat /\
  create_crowd_audio base v add_variation g =
    (map (fun s => fbound (IZR s * sqrt (INR v)))
         (fst (varied base add_variation g)),
     snd (varied base add_variation g)).
Proof.
  intros Hv.
  pose proof (num_layers_small v ltac:(lia)) as HL.
  split; [exact HL|].
  rewrite create_crowd_audio_layers by lia. cbv zeta. rewrite HL.
  cbn [Nat.sub jittered_copies]. unfold ret. cbn [fst snd overlay_layers fold_left].
  unfold apply_gain. now rewrite db_to_float_db_increase by lia.
Qed.

Lemma create_crowd_audio_single_layer_witness :
  (2 <= 3 <= 3)%nat /\
  num_layers 3 = 1%nat /\
  create_crowd_audio two_samples 3 true counting =
    (map (fun s => fbound (IZR s * sqrt (INR 3)))
         (fst (varied two_samples true counting)),
     snd (varied two_samples true counting)).
Proof.
  split; [lia|].
  apply (create_crowd_audio_single_layer two_samples 3 true counting). lia.
Defined.




(* ================================================================== *)
(** ** The 16-bit range *)

Lemma in_range_0 : in_range 0.
Proof. unfold in_range, minval, maxval. lia. Qed.

Lemma valid_silent (d : nat) : valid (silent d).
Proof.
  unfold valid, silent. induction d; simpl; constructor; auto using in_range_0.
Qed.

Lemma valid_append (a b : AudioSegment) :
  valid a -> valid b -> valid (append a b).
Proof. unfold valid, append. intros Ha Hb. apply Forall_app. now split. Qed.

Lemma valid_apply_gain (a : AudioSegment) (db : R) : valid (apply_gain a db).
Proof.
  unfold valid, apply_gain. apply Forall_forall. intros x Hx.
  apply in_map_iff in Hx as (s & <- & _). apply fbound_in_range.
Qed.

Lemma valid_overlay (a b : AudioSegment) :
  valid a \/ (len a <= len b)%nat -> valid (overlay a b).
Proof.
  unfold valid, len. revert b.
  induction a as [|x a IH]; intros b H; [destruct b; constructor|].
  destruct b as [|y b]; simpl.
  - destruct H as [H|H]; [exact H | simpl in H; lia].
  - constructor; [apply clip_in_range|].
    apply IH. destruct H as [H|H]; [left; now inversion H | right; simpl in H; lia].
Qed.

Lemma valid_overlay_layers attenuation acc layers :
  valid acc -> valid (overlay_layers attenuation acc layers).
Proof.
  revert acc. induction layers as [|l ls IH]; intros acc H; simpl; auto.
  apply IH. apply valid_overlay. now left.
Qed.

Lemma valid_normalize (a : AudioSegment) (headroom : R) :
  valid a -> valid (normalize a headroom).
Proof.
  intros H. unfold normalize. cbv zeta.
  destruct (Pydub.max a =? 0)%Z; [exact H|].
  destruct (ratio_to_db _); cbn [apply_gain_level];
    [|apply valid_apply_gain].
  unfold valid. apply Forall_forall. intros x Hx.
  apply in_map_iff in Hx as (s & <- & _). apply fbound_in_range.
Qed.

(** Whatever the two inputs hold, every sample of
    [mix_agree_disagree_crowds a b] lies in the 16-bit range: the
    overlay clips each sum and the normalization each product. *)
Lemma mix_in_range (a b : AudioSegment) :
  valid (mix_agree_disagree_crowds a b) /\
  (Pydub.max (mix_agree_disagree_crowds a b) <= max_possible_amplitude)%Z.
Proof.
  assert (H : valid (mix_agree_disagree_crowds a b)).
  { rewrite mix_guard. destruct (exceeds_dec _ _).
    - apply valid_normalize, padded_overlay_in_range.
    - apply padded_overlay_in_range. }
  split; [exact H | now apply max_in_range].
Qed.

(** [create_crowd_audio] keeps buffers in the 16-bit range: from a
    base whose samples are in range the output's are, for every crowd
    size and either flag; and for a crowd size other than 1 they are
    whatever the base holds. *)
Lemma create_crowd_audio_in_range
    (base : AudioSegment) (v : nat) (add_variation : bool) (g : Random.State) :
  (valid base -> valid (fst (create_crowd_audio base v add_variation g))) /\
  (v <> 1%nat -> valid (fst (create_crowd_audio base v add_variation g))).
Proof.
  assert (Hbig : (1 < v)%nat ->
                 valid (fst (create_crowd_audio base v add_variation g))).
  { intros Hv. rewrite create_crowd_audio_layers by exact Hv.
    cbv zeta. cbn [fst]. apply valid_apply_gain. }
  assert (H0 : valid (fst (create_crowd_audio base 0 add_variation g)))
    by apply valid_silent.
  split.
  - intros Hb. destruct v as [|[|n]]; [exact H0 | | apply Hbig; lia].
    change (create_crowd_audio base 1 add_variation g)
      with (varied base add_variation g).
    destruct add_variation; [|exact Hb].
    rewrite varied_true. cbn [fst].
    apply valid_append; [apply valid_silent | exact Hb].
  - intros Hne. destruct v as [|[|n]];
      [exact H0 | contradiction | apply Hbig; lia].
Qed.

(* ================================================================== *)
(** ** More on the crowd mixer *)

Lemma overlay_comm (a b : AudioSegment) :
  len a = len b -> overlay a b = overlay b a.
Proof.
  unfold len. revert b. induction a as [|x a IH]; intros [|y b] H;
    simpl in *; try discriminate; auto.
  rewrite (Z.add_comm x y). f_equal. apply IH. lia.
Qed.

Lemma padded_overlay_comm (a b : AudioSegment) :
  padded_overlay a b = padded_overlay b a.
Proof.
  unfold padded_overlay. rewrite (Nat.max_comm (len b) (len a)).
  apply overlay_comm. rewrite !len_pad_to by lia. reflexivity.
Qed.

(** X6.  The mix does not depend on the order of its two crowds. *)
Theorem mix_comm (a b : AudioSegment) :
  mix_agree_disagree_crowds a b = mix_agree_disagree_crowds b a.
Proof. rewrite !mix_guard. now rewrite padded_overlay_comm. Qed.

Lemma overlay_silent (a : AudioSegment) (n : nat) :
  valid a -> overlay a (silent n) = a.
Proof.
  unfold valid, silent. revert n.
  induction a as [|x a IH]; intros [|n] H; simpl; auto.
  inversion H as [|? ? Hx Ha]; subst.
  rewrite Z.add_0_r, clip_id by exact Hx. f_equal. now apply IH.
Qed.

Lemma max_append_silent (a : AudioSegment) (n : nat) :
  Pydub.max (append a (silent n)) = Pydub.max a.
Proof.
  unfold append. induction a as [|x a IH]; simpl.
  - apply max_silent.
  - now rewrite IH.
Qed.

(** X7.  Mixing a crowd whose samples are in range and whose peak does
    not exceed -1 dBFS with a silence returns the crowd, followed by as
    much silence as the other buffer is longer; in particular the mix
    of two silences is a silence.  This is what the pipeline exports as
    "both" when one of the two counts is 0. *)
Theorem mix_with_silence (a : AudioSegment) (n : nat) :
  valid a -> at_most (max_dBFS a) (-1) ->
  mix_agree_disagree_crowds a (silent n)
    = append a (silent (Nat.max (len a) n - len a)) /\
  mix_agree_disagree_crowds (silent n) a
    = append a (silent (Nat.max (len a) n - len a)) /\
  ((n <= len a)%nat -> mix_agree_disagree_crowds a (silent n) = a).
Proof.
  intros Hv Hq.
  assert (E : mix_agree_disagree_crowds a (silent n)
              = append a (silent (Nat.max (len a) n - len a))).
  { rewrite mix_guard.
    assert (Ep : padded_overlay a (silent n)
                 = append a (silent (Nat.max (len a) n - len a))).
    { unfold padded_overlay, pad_to. rewrite len_silent.
      replace (append (silent n) (silent (Nat.max (len a) n - n)))
        with (silent (n + (Nat.max (len a) n - n)))
        by (unfold append, silent; apply repeat_app).
      apply overlay_silent. apply valid_append; [exact Hv | apply valid_silent]. }
    rewrite Ep.
    destruct (exceeds_dec _ _) as [Hgt|_]; [exfalso | reflexivity].
    unfold max_dBFS in Hgt. rewrite max_append_silent in Hgt.
    apply not_exceeds in Hq. now apply Hq. }
  split; [exact E|].
  split; [rewrite mix_guard, padded_overlay_comm, <- mix_guard; exact E|].
  intros Hn. rewrite E. replace (Nat.max (len a) n - len a)%nat with 0%nat by lia.
  unfold append, silent. simpl. apply app_nil_r.
Qed.

Lemma mix_with_silence_witness :
  valid quiet_agree /\ at_most (max_dBFS quiet_agree) (-1) /\
  (1 <= len quiet_agree)%nat /\
  mix_agree_disagree_crowds quiet_agree (silent 5)
    = append quiet_agree (silent (Nat.max (len quiet_agree) 5 - len quiet_agree)) /\
  mix_agree_disagree_crowds quiet_agree (silent 1) = quiet_agree.
Proof.
  assert (Hv : valid quiet_agree).
  { unfold valid, quiet_agree, in_range, minval, maxval.
    repeat constructor; lia. }
  assert (Hq : at_most (max_dBFS quiet_agree) (-1)).
  { apply not_exceeds. rewrite exceeds_minus_1_sample.
    unfold quiet_agree. simpl. lia. }
  assert (Hn : (1 <= len quiet_agree)%nat) by (simpl; lia).
  split; [exact Hv|]. split; [exact Hq|]. split; [exact Hn|].
  split.
  - apply (proj1 (mix_with_silence quiet_agree 5 Hv Hq)).
  - apply (proj2 (proj2 (mix_with_silence quiet_agree 1 Hv Hq)) Hn).
Defined.

(* ================================================================== *)
(** ** More on the voice counts *)


Lemma py_round_comp (x y : Q) : (x == y)%Q -> py_round x = py_round y.
Proof.
  intros E. unfold py_round. cbv zeta.
  assert (Ef : Qfloor x = Qfloor y) by (now rewrite E).
  rewrite Ef.
  assert (Ec : Qcompare (x - inject_Z (Qfloor y)) (1 # 2)
               = Qcompare (y - inject_Z (Qfloor y)) (1 # 2))
    by (now rewrite E).
  now rewrite Ec.
Qed.

Lemma py_round_mono (x y : Q) : (x <= y)%Q -> (py_round x <= py_round y)%Z.
Proof.
  intros Hxy.
  pose proof (Qfloor_resp_le x y Hxy) as Hf.
  pose proof (py_round_floor x) as [_ Hx].
  pose proof (py_round_floor y) as [Hy _].
  destruct (Z.eq_dec (Qfloor x) (Qfloor y)) as [E|NE]; [|lia].
  unfold py_round. cbv zeta. rewrite E.
  destruct (Qcompare_spec (x - inject_Z (Qfloor y)) (1 # 2)) as [H1|H1|H1];
    destruct (Qcompare_spec (y - inject_Z (Qfloor y)) (1 # 2)) as [H2|H2|H2];
    try destruct (Z.even (Qfloor y)); try lia; exfalso; Lqa.lra.
Qed.

Lemma agree_count_100 (p : Q) : agree_count NUM_VOICES p = py_round p.
Proof. unfold agree_count, NUM_VOICES. apply py_round_comp. field. Qed.



(* ================================================================== *)
(** ** More on the pipeline *)

Lemma crowd_or_silence_nonpositive base count g :
  (count <= 0)%Z ->
  crowd_or_silence base count g = (silent (len base), g) /\
  calls base count = [].
Proof.
  intros H. unfold crowd_or_silence, calls.
  destruct (Z.gtb_spec count 0); [lia|]. split; reflexivity.
Qed.

(** X9.  A stance whose count is zero or negative, be it the agree or
    the disagree one, is rendered as a silence of the duration of its
    base utterance, without any call of [create_crowd_audio] for it and
    without a random draw: the silence is exported as that stance's
    file and is what the other stance's second crowd is mixed with.
    With 100 voices this is the agree stance of every percentage up to
    one half and the disagree stance of every percentage from 99.5
    on. *)
Theorem silent_stance (index : nat) (population : string)
    (agree_base disagree_base : AudioSegment) (agree disagree : Z) (w : World) :
  ((agree <= 0)%Z ->
   let c2 := crowd_or_silence disagree_base disagree (random w) in
   let c4 := crowd_or_silence disagree_base disagree (snd c2) in
   population_outputs index population agree_base disagree_base agree disagree w
   = Return tt
       (mkWorld (snd c4)
          (exported w ++
             [(output_file index (population ++ "_agree"), silent (len agree_base));
              (output_file index (population ++ "_disagree"), fst c2);
              (output_file index (population ++ "_both"),
               mix_agree_disagree_crowds (silent (len agree_base)) (fst c4))])
          (synthesized w ++ calls disagree_base disagree ++ calls disagree_base disagree))) /\
  ((disagree <= 0)%Z ->
   let c1 := crowd_or_silence agree_base agree (random w) in
   let c3 := crowd_or_silence agree_base agree (snd c1) in
   population_outputs index population agree_base disagree_base agree disagree w
   = Return tt
       (mkWorld (snd c3)
          (exported w ++
             [(output_file index (population ++ "_agree"), fst c1);
              (output_file index (population ++ "_disagree"), silent (len disagree_base));
              (output_file index (population ++ "_both"),
               mix_agree_disagree_crowds (fst c3) (silent (len disagree_base)))])
          (synthesized w ++ calls agree_base agree ++ calls agree_base agree))) /\
  (forall p : Q, (p <= 1 # 2)%Q -> (agree_count NUM_VOICES p <= 0)%Z) /\
  (forall p : Q, (199 # 2 <= p)%Q ->
     (disagree_count NUM_VOICES (agree_count NUM_VOICES p) <= 0)%Z).
Proof.
  split; [|split; [|split]].
  - intros Ha. cbv zeta.
    rewrite population_outputs_result, population_result_fields. cbv zeta.
    destruct (crowd_or_silence_nonpositive agree_base agree (random w) Ha)
      as [E1 Ec].
    rewrite E1. cbn [fst snd].
    destruct (crowd_or_silence_nonpositive agree_base agree
                (snd (crowd_or_silence disagree_base disagree (random w))) Ha)
      as [E3 _].
    rewrite E3. cbn [fst snd]. rewrite Ec. reflexivity.
  - intros Hd. cbv zeta.
    rewrite population_outputs_result, population_result_fields. cbv zeta.
    destruct (crowd_or_silence_nonpositive disagree_base disagree
                (snd (crowd_or_silence agree_base agree (random w))) Hd)
      as [E2 Ec].
    rewrite E2. cbn [fst snd].
    destruct (crowd_or_silence_nonpositive disagree_base disagree
                (snd (crowd_or_silence agree_base agree
                        (snd (crowd_or_silence agree_base agree (random w)))))
                Hd) as [E4 _].
    rewrite E4. cbn [fst snd]. rewrite Ec, !app_nil_r. reflexivity.
  - intros p Hp. rewrite agree_count_100.
    change 0%Z with (py_round (1 # 2)). now apply py_round_mono.
  - intros p Hp. rewrite agree_count_100. unfold disagree_count, NUM_VOICES.
    assert (py_round (199 # 2) <= py_round p)%Z by now apply py_round_mono.
    change (py_round (199 # 2)) with 100%Z in *. lia.
Qed.

Lemma silent_stance_witness :
  ((0 <= 0)%Z /\
   let c2 := crowd_or_silence two_samples 100 (random fresh) in
   let c4 := crowd_or_silence two_samples 100 (snd c2) in
   population_outputs 0 "sci" two_samples two_samples 0 100 fresh
   = Return tt
       (mkWorld (snd c4)
          (exported fresh ++
             [(output_file 0 ("sci" ++ "_agree"), silent (len two_samples));
              (output_file 0 ("sci" ++ "_disagree"), fst c2);
              (output_file 0 ("sci" ++ "_both"),
               mix_agree_disagree_crowds (silent (len two_samples)) (fst c4))])
          (synthesized fresh ++ calls two_samples 100 ++ calls two_samples 100))) /\
  ((0 <= 0)%Z /\
   let c1 := crowd_or_silence two_samples 100 (random fresh) in
   let c3 := crowd_or_silence two_samples 100 (snd c1) in
   population_outputs 1 "pub" two_samples two_samples 100 0 fresh
   = Return tt
       (mkWorld (snd c3)
          (exported fresh ++
             [(output_file 1 ("pub" ++ "_agree"), fst c1);
              (output_file 1 ("pub" ++ "_disagree"), silent (len two_samples));
              (output_file 1 ("pub" ++ "_both"),
               mix_agree_disagree_crowds (fst c3) (silent (len two_samples)))])
          (synthesized fresh ++ calls two_samples 100 ++ calls two_samples 100))) /\
  ((1 # 2 <= 1 # 2)%Q /\ (agree_count NUM_VOICES (1 # 2) <= 0)%Z) /\
  ((199 # 2 <= 100)%Q /\
   (disagree_count NUM_VOICES (agree_count NUM_VOICES 100) <= 0)%Z).
Proof.
  assert (H : (0 <= 0)%Z) by lia.
  assert (Hp : (1 # 2 <= 1 # 2)%Q) by discriminate.
  assert (Hq : (199 # 2 <= 100)%Q) by discriminate.
  split; [split; [exact H|]|split; [split; [exact H|]|split]].
  - apply (proj1 (silent_stance 0 "sci" two_samples two_samples 0 100 fresh) H).
  - apply (proj1 (proj2 (silent_stance 1 "pub" two_samples two_samples
                           100 0 fresh)) H).
  - split; [exact Hp|].
    apply (proj1 (proj2 (proj2 (silent_stance 0 "sci" two_samples two_samples
                                  0 100 fresh))) (1 # 2) Hp).
  - split; [exact Hq|].
    apply (proj2 (proj2 (proj2 (silent_stance 0 "sci" two_samples two_samples
                                  0 100 fresh))) 100%Q Hq).
Defined.

Lemma names_of_population (index : nat) (population : string)
    (agree_base disagree_base : AudioSegment) (agree disagree : Z) (w : World) :
  map fst (exported (population_result index population agree_base
                       disagree_base agree disagree w))
  = (map fst (exported w) ++
     [output_file index (population ++ "_agree");
      output_file index (population ++ "_disagree");
      output_file index (population ++ "_both")])%list.
Proof.
  rewrite population_result_fields. cbv zeta. cbn [exported].
  rewrite map_app. reflexivity.
Qed.


(** The three ways [generate_audio_for_issue] ends. *)
Lemma generate_audio_for_issue_cases
    (float : string -> option pyfloat)
    (generate_tts : string -> string -> string -> option AudioSegment)
    (row : Row) (index : nat) (w : World) :
  (exists e : exn,
     record_counts float row = inl e /\
     generate_audio_for_issue float generate_tts row index w = Raise e w) \/
  (well_formed float row /\ speaks generate_tts row = false /\
   generate_audio_for_issue float generate_tts row index w
     = Return false w) \/
  (well_formed float row /\ speaks generate_tts row = true /\
   exists w' : World,
     generate_audio_for_issue float generate_tts row index w
       = Return true w' /\
     map fst (exported w')
       = (map fst (exported w) ++ names_of_record index)%list).
Proof.
  rewrite generate_audio_for_issue_run. unfold well_formed, speaks.
  destruct (record_counts float row) as [e|[sci_agree pub_agree]].
  { left. exists e. now split. }
  right.
  assert (Hwf : exists counts : Z * Z,
             @inr exn _ (sci_agree, pub_agree) = inr counts)
    by now exists (sci_agree, pub_agree).
  destruct (generate_tts ("I believe " ++ statement row)%string _ "com"%string)
    as [agree_base|].
  2:{ left. split; [exact Hwf|]. now split. }
  destruct (generate_tts ("I don't believe " ++ statement row)%string _
              "co.uk"%string) as [disagree_base|].
  - right. split; [exact Hwf|]. split; [reflexivity|].
    eexists. split; [reflexivity|].
    rewrite !names_of_population, <- app_assoc. reflexivity.
  - left. split; [exact Hwf|]. now split.
Qed.

(** X10.  A record that is not processed leaves nothing behind: when
    [generate_audio_for_issue] raises, or returns [False] because an
    utterance could not be synthesized, no file has been exported and
    no random number drawn; when it returns [True], exactly the six
    files of the record's index have been added, in the order they are
    written. *)
Theorem generate_audio_for_issue_all_or_nothing
    (float : string -> option pyfloat)
    (generate_tts : string -> string -> string -> option AudioSegment)
    (row : Row) (index : nat) (w w' : World) :
  (forall e : exn,
     generate_audio_for_issue float generate_tts row index w = Raise e w' ->
     w' = w) /\
  (generate_audio_for_issue float generate_tts row index w = Return false w' ->
   w' = w) /\
  (generate_audio_for_issue float generate_tts row index w = Return true w' ->
   map fst (exported w') = (map fst (exported w) ++ names_of_record index)%list).
Proof.
  destruct (generate_audio_for_issue_cases float generate_tts row index w)
    as [(e0 & _ & E) | [(_ & _ & E) | (_ & _ & w1 & E & Hn)]]; rewrite E.
  - split; [intros e H; now inversion H|]. split; discriminate.
  - split; [discriminate|]. split; [intros H; now inversion H | discriminate].
  - split; [discriminate|]. split; [discriminate|].
    intros H. inversion H; subst. exact Hn.
Qed.

Lemma generate_audio_for_issue_all_or_nothing_witness :
  generate_audio_for_issue decimal_float speaking row_malformed 0 fresh
    = Raise ValueError fresh /\
  generate_audio_for_issue decimal_float speaking row_97_50 0 fresh
    = Return true
        (population_result 0 "pub" two_samples two_samples 50 50
           (population_result 0 "sci" two_samples two_samples 97 3 fresh)) /\
  fresh = fresh /\
  map fst (exported
             (population_result 0 "pub" two_samples two_samples 50 50
                (population_result 0 "sci" two_samples two_samples 97 3 fresh)))
    = (map fst (exported fresh) ++ names_of_record 0)%list.
Proof.
  assert (H1 : generate_audio_for_issue decimal_float speaking row_malformed
                 0 fresh = Raise ValueError fresh).
  { apply generate_audio_for_issue_malformed. left. reflexivity. }
  split; [exact H1|]. split; [exact row_97_50_processed|].
  split.
  - apply (proj1 (generate_audio_for_issue_all_or_nothing decimal_float
                    speaking row_malformed 0 fresh fresh) ValueError H1).
  - apply (proj2 (proj2 (generate_audio_for_issue_all_or_nothing decimal_float
                    speaking row_97_50 0 fresh _)) row_97_50_processed).
Defined.

(* ================================================================== *)
(** ** File names *)

Lemma to_uint_nonnil (n : nat) : Nat.to_uint n <> Decimal.Nil.
Proof.
  rewrite <- (DecimalNat.Unsigned.of_to n) at 1.
  rewrite DecimalNat.Unsigned.to_of. apply DecimalFacts.unorm_nonnil.
Qed.

Lemma digits_of_index (index : nat) :
  NilZero.string_of_uint (Nat.to_uint index)
  = NilEmpty.string_of_uint (Nat.to_uint index).
Proof.
  pose proof (to_uint_nonnil index) as H.
  destruct (Nat.to_uint index); [contradiction | reflexivity ..].
Qed.

Lemma of_uint_D0 (d : Decimal.uint) :
  Nat.of_uint (Decimal.D0 d) = Nat.of_uint d.
Proof.
  rewrite <- (DecimalNat.Unsigned.of_uint_norm (Decimal.D0 d)).
  rewrite DecimalFacts.unorm_D0. apply DecimalNat.Unsigned.of_uint_norm.
Qed.

Lemma index_of_format_02d (index : nat) :
  index_of_02d (format_02d index) = Some index.
Proof.
  unfold index_of_02d, format_02d. cbv zeta. rewrite digits_of_index.
  destruct (index <? 10)%nat.
  - cbn [NilEmpty.uint_of_string]. rewrite NilEmpty.usu.
    cbn [uint_of_char option_map]. f_equal. rewrite of_uint_D0.
    apply DecimalNat.Unsigned.of_to.
  - rewrite NilEmpty.usu. cbn [option_map]. f_equal.
    apply DecimalNat.Unsigned.of_to.
Qed.

Lemma format_02d_short :
  forallb (fun i => (String.length (format_02d i) =? 2)%nat) (seq 0 100) = true.
Proof. vm_compute. reflexivity. Qed.

Lemma string_of_uint_length (d : Decimal.uint) :
  String.length (NilEmpty.string_of_uint d) = Decimal.nb_digits d.
Proof. induction d; simpl; auto. Qed.

Lemma two_digits (index : nat) :
  (10 <= index)%nat -> (2 <= Decimal.nb_digits (Nat.to_uint index))%nat.
Proof.
  intros H. pose proof (to_uint_nonnil index) as Hn.
  pose proof (DecimalNat.Unsigned.of_to index) as Hof.
  destruct (Nat.to_uint index) as [|u|u|u|u|u|u|u|u|u|u];
    [contradiction | ..];
    (destruct u; [exfalso; vm_compute in Hof; lia | simpl; lia ..]).
Qed.

(** X11.  [{index:02d}] is read back as the index it was written
    from, so different indices give different texts; the text has at
    least two characters, and exactly two for an index below 100. *)
Theorem format_02d_round_trip (index : nat) :
  index_of_02d (format_02d index) = Some index /\
  (forall index' : nat, format_02d index = format_02d index' -> index = index') /\
  (2 <= String.length (format_02d index))%nat /\
  ((index < 100)%nat -> String.length (format_02d index) = 2%nat).
Proof.
  split; [apply index_of_format_02d|].
  split.
  { intros index' E. pose proof (index_of_format_02d index) as H.
    rewrite E, index_of_format_02d in H. now inversion H. }
  assert (Hlt : (index < 100)%nat -> String.length (format_02d index) = 2%nat).
  { intros H. pose proof format_02d_short as Hall.
    rewrite forallb_forall in Hall.
    apply Nat.eqb_eq, Hall, in_seq. lia. }
  split; [|exact Hlt].
  destruct (Nat.lt_ge_cases index 100) as [H|H]; [rewrite Hlt by exact H; lia|].
  unfold format_02d. cbv zeta.
  destruct (Nat.ltb_spec index 10) as [H10|H10]; [lia|].
  rewrite digits_of_index, string_of_uint_length.
  now apply two_digits.
Qed.

Lemma uint_of_char_underscore (o : option Decimal.uint) :
  uint_of_char "_" o = None.
Proof. destruct o; reflexivity. Qed.

Lemma uint_of_string_tail (c : ascii) (s : string) :
  NilEmpty.uint_of_string (String c s) <> None ->
  c <> "_"%char /\ NilEmpty.uint_of_string s <> None.
Proof.
  cbn [NilEmpty.uint_of_string]. intros H. split.
  - intros ->. now rewrite uint_of_char_underscore in H.
  - intros E. rewrite E in H. now apply H.
Qed.

(** Texts of digits followed by an underscore are told apart by the
    underscore. *)
Lemma digits_underscore (u v x y : string) :
  NilEmpty.uint_of_string u <> None ->
  NilEmpty.uint_of_string v <> None ->
  (u ++ String "_" x)%string = (v ++ String "_" y)%string ->
  u = v /\ x = y.
Proof.
  revert v. induction u as [|c u IH]; intros [|c' v] Hu Hv E; simpl in E.
  - now inversion E.
  - apply uint_of_string_tail in Hv as [Hc _]. inversion E. congruence.
  - apply uint_of_string_tail in Hu as [Hc _]. inversion E. congruence.
  - apply uint_of_string_tail in Hu as [_ Hu].
    apply uint_of_string_tail in Hv as [_ Hv].
    inversion E; subst.
    destruct (IH v Hu Hv ltac:(assumption)) as [-> ->]. now split.
Qed.

Lemma string_length_append (s t : string) :
  String.length (s ++ t) = (String.length s + String.length t)%nat.
Proof. induction s; simpl; auto. Qed.

Lemma string_append_inv_tail (s t x : string) :
  (s ++ x)%string = (t ++ x)%string -> s = t.
Proof.
  revert t. induction s as [|c s IH]; intros [|c' t] E; simpl in E; auto.
  - apply (f_equal String.length) in E. simpl in E.
    rewrite string_length_append in E. lia.
  - apply (f_equal String.length) in E. simpl in E.
    rewrite string_length_append in E. lia.
  - inversion E; subst. f_equal. now apply IH.
Qed.

Lemma format_02d_digits (index : nat) :
  NilEmpty.uint_of_string (format_02d index) <> None.
Proof.
  pose proof (index_of_format_02d index) as H. unfold index_of_02d in H.
  intros E. rewrite E in H. discriminate.
Qed.

Lemma output_file_inj (index index' : nat) (suffix suffix' : string) :
  output_file index suffix = output_file index' suffix' ->
  index = index' /\ suffix = suffix'.
Proof.
  unfold output_file, AUDIO_DIR. cbn [append]. intros E.
  inversion E as [E']. clear E.
  apply digits_underscore in E' as [Ef Es]; try apply format_02d_digits.
  split.
  - pose proof (index_of_format_02d index) as H.
    rewrite Ef, index_of_format_02d in H. now inversion H.
  - now apply string_append_inv_tail in Es.
Qed.

Lemma names_of_record_distinct (index : nat) : NoDup (names_of_record index).
Proof.
  unfold names_of_record.
  repeat (constructor;
          [cbn [In]; intros H;
           repeat (destruct H as [H|H];
                   [apply output_file_inj in H as [_ H]; discriminate|]);
           exact H|]).
  constructor.
Qed.

Lemma names_of_record_index (index : nat) (name : string) :
  In name (names_of_record index) ->
  exists suffix : string, name = output_file index suffix.
Proof.
  unfold names_of_record. cbn [In].
  intros H. repeat (destruct H as [<-|H]; [eexists; reflexivity|]).
  contradiction.
Qed.

(** X12.  The path of an output file determines the index and the
    suffix it was built from: two outputs share a path only if they are
    the same output of the same record.  The six paths of one record
    are pairwise different. *)
Theorem output_file_injective (index index' : nat) (suffix suffix' : string) :
  (output_file index suffix = output_file index' suffix' <->
   index = index' /\ suffix = suffix') /\
  NoDup (names_of_record index).
Proof.
  split.
  - split; [apply output_file_inj | intros [-> ->]; reflexivity].
  - apply names_of_record_distinct.
Qed.

(* ================================================================== *)
(** ** More on the batch driver *)

Lemma speaking_indices_bounds generate_tts (data : list Row) (index i : nat) :
  In i (speaking_indices generate_tts data index) ->
  (index <= i < index + List.length data)%nat.
Proof.
  revert index. induction data as [|row rest IH]; intros index; simpl;
    [tauto|].
  destruct (speaks generate_tts row); [intros [<-|H] | intros H];
    try lia; apply IH in H; lia.
Qed.

Lemma speaking_indices_distinct generate_tts (data : list Row) (index : nat) :
  NoDup (speaking_indices generate_tts data index).
Proof.
  revert index. induction data as [|row rest IH]; intros index; simpl;
    [constructor|].
  destruct (speaks generate_tts row); [|apply IH].
  constructor; [|apply IH].
  intros H. apply speaking_indices_bounds in H. lia.
Qed.


Lemma names_distinct (done : list nat) :
  NoDup done -> NoDup (flat_map names_of_record done).
Proof.
  induction 1 as [|i done Hi _ IH]; [constructor|].
  cbn [flat_map].
  apply NoDup_app; [apply names_of_record_distinct | exact IH |].
  intros name H1 H2.
  apply names_of_record_index in H1 as [suffix ->].
  apply in_flat_map in H2 as (j & Hj & H2).
  apply names_of_record_index in H2 as [suffix' E].
  apply output_file_inj in E as [-> _]. contradiction.
Qed.




(** The loop of [main], however it ends: the files written are those of
    the speaking records among the first [k], for some [k]. *)
Lemma process_names
    (float : string -> option pyfloat)
    (generate_tts : string -> string -> string -> option AudioSegment)
    (data : list Row) (index n : nat) (w : World) :
  exists k : nat,
    map fst (exported (world_of (process float generate_tts data index n w)))
      = (map fst (exported w) ++
         flat_map names_of_record
           (speaking_indices generate_tts (firstn k data) index))%list.
Proof.
  revert index n w. induction data as [|row rest IH]; intros index n w.
  - exists 0%nat. cbn. now rewrite app_nil_r.
  - cbn [process].
    destruct (generate_audio_for_issue_cases float generate_tts row index w)
      as [(e & _ & E) | [(_ & Hs & E) | (_ & Hs & w1 & E & Hn)]].
    + exists 0%nat. erewrite and_then_raise by exact E. cbn.
      now rewrite app_nil_r.
    + erewrite and_then_return by exact E.
      destruct (IH (S index) n w) as [k Hk]. exists (S k).
      cbn [firstn speaking_indices]. rewrite Hs. exact Hk.
    + erewrite and_then_return by exact E.
      destruct (IH (S index) (S n) w1) as [k Hk]. exists (S k).
      cbn [firstn speaking_indices]. rewrite Hs, Hk, Hn.
      cbn [flat_map]. now rewrite <- !app_assoc.
Qed.

Lemma world_of_main
    (float : string -> option pyfloat)
    (generate_tts : string -> string -> string -> option AudioSegment)
    (data : list Row) (w : World) :
  world_of (main float generate_tts data w)
  = world_of (process float generate_tts data 0 0 w).
Proof.
  unfold main, and_then.
  destruct (process float generate_tts data 0 0 w); reflexivity.
Qed.

Lemma row_nan_counts : record_counts decimal_float row_nan = inl ValueError.
Proof. vm_compute. reflexivity. Qed.

(** A percentage that [float] reads but [round] refuses: the record
    with "nan" ends the run like the one with "n/a"; an infinity ends
    it with [OverflowError], and so does a finite percentage as large
    as [1e307], a hundred times which is beyond the doubles. *)
Example main_nan_record :
  decimal_float (scientific_consensus row_nan) = Some NaN /\
  main decimal_float speaking [row_nan; row_97_50] fresh
    = Raise ValueError fresh /\
  count_of NUM_VOICES (Infinity false) = inl OverflowError /\
  count_of NUM_VOICES (Finite (inject_Z (10 ^ 307))) = inl OverflowError.
Proof.
  split; [reflexivity|]. split; [|split; [reflexivity | vm_compute; reflexivity]].
  unfold main, process. apply and_then_raise, and_then_raise.
  apply generate_audio_for_issue_raises. exact row_nan_counts.
Qed.




(** X15.  A run that starts with no file written never writes to the
    same path twice, however it ends: the names of the files exported
    by [main] are pairwise different, so no output overwrites
    another. *)
Theorem main_never_overwrites
    (float : string -> option pyfloat)
    (generate_tts : string -> string -> string -> option AudioSegment)
    (data : list Row) (w : World) :
  exported w = [] ->
  NoDup (map fst (exported (world_of (main float generate_tts data w)))).
Proof.
  intros Hw. rewrite world_of_main.
  destruct (process_names float generate_tts data 0 0 w) as [k Hk].
  rewrite Hk, Hw. cbn [map app].
  apply names_distinct, speaking_indices_distinct.
Qed.

Lemma main_never_overwrites_witness :
  exported fresh = [] /\
  NoDup (map fst (exported (world_of
           (main decimal_float speaking
                 [row_97_50; row_97_50; row_malformed] fresh)))).
Proof.
  split; [reflexivity|].
  apply (main_never_overwrites decimal_float speaking
           [row_97_50; row_97_50; row_malformed] fresh).
  reflexivity.
Defined.

(* ================================================================== *)
(** ** Temporary file names *)

Lemma replace_length (old new : ascii) (s : string) :
  String.length (replace old new s) = String.length s.
Proof. induction s; simpl; auto. Qed.

Lemma replace_free (old new : ascii) (s : string) :
  new <> old -> free_of old (replace old new s).
Proof.
  intros Hne. induction s as [|c s IH]; simpl; auto.
  split; [|exact IH].
  destruct (Ascii.eqb_spec c old); auto.
Qed.

Lemma replace_keeps_free (c old new : ascii) (s : string) :
  new <> c -> free_of c s -> free_of c (replace old new s).
Proof.
  intros Hne. induction s as [|c' s IH]; simpl; auto.
  intros [Hc Hs]. split; [|now apply IH].
  destruct (Ascii.eqb c' old); auto.
Qed.

Lemma replace_id (old new : ascii) (s : string) :
  free_of old s -> replace old new s = s.
Proof.
  induction s as [|c s IH]; simpl; auto.
  intros [Hc Hs]. rewrite IH by exact Hs.
  destruct (Ascii.eqb_spec c old); [contradiction | reflexivity].
Qed.

(** X16.  The name used for the temporary files of an issue has the
    length of the issue's name and holds neither a blank nor a slash,
    so the files lie directly in [TEMP_DIR]; a name without blanks and
    slashes is used as it is. *)
Theorem issue_name_sanitised (row : Row) :
  String.length (issue_name row) = String.length (issue row) /\
  free_of " " (issue_name row) /\
  free_of "/" (issue_name row) /\
  (free_of " " (issue row) -> free_of "/" (issue row) ->
   issue_name row = issue row).
Proof.
  unfold issue_name.
  split; [now rewrite !replace_length|].
  split; [apply replace_keeps_free; [discriminate|];
          apply replace_free; discriminate|].
  split; [apply replace_free; discriminate|].
  intros Hb Hs. rewrite (replace_id " " "_" (issue row) Hb).
  now apply replace_id.
Qed.

Lemma issue_name_sanitised_witness :
  free_of " " (issue row_malformed) /\ free_of "/" (issue row_malformed) /\
  issue_name row_malformed = issue row_malformed /\
  free_of " " (issue_name row_97_50).
Proof.
  assert (Hb : free_of " " (issue row_malformed))
    by (simpl; repeat split; discriminate).
  assert (Hs : free_of "/" (issue row_malformed))
    by (simpl; repeat split; discriminate).
  split; [exact Hb|]. split; [exact Hs|].
  split.
  - apply (proj2 (proj2 (proj2 (issue_name_sanitised row_malformed))) Hb Hs).
  - apply (proj1 (proj2 (issue_name_sanitised row_97_50))).
Defined.

(* ================================================================== *)
(** ** Attenuation and durations *)

Lemma log10_1 : log10 1 = 0.
Proof. unfold log10, Rlog. rewrite ln_1. unfold Rdiv. apply Rmult_0_l. Qed.

Lemma log10_50 : log10 50 < 17 / 10.
Proof.
  pose proof ln_10_pos as H10.
  assert (H : 10 * ln 50 < 17 * ln 10).
  { replace (10 * ln 50) with (INR 10 * ln 50)
      by (rewrite INR_IZR_INZ; reflexivity).
    replace (17 * ln 10) with (INR 17 * ln 10)
      by (rewrite INR_IZR_INZ; reflexivity).
    rewrite <- !ln_pow by lra.
    apply ln_increasing; [apply pow_lt; lra|].
    rewrite !pow_IZR. apply IZR_lt. reflexivity. }
  unfold log10, Rlog.
  assert (E : ln 50 / ln 10 * ln 10 = ln 50) by (field; lra).
  apply (Rmult_lt_reg_r (ln 10)); [exact H10|]. rewrite E. lra.
Qed.

(** X17.  The attenuation of the overlaid layers,
    [3 * log10(num_layers)], is never negative and stays below 5.1
    decibels, because the number of layers is capped at 50; with a
    single layer it is 0. *)
Theorem layer_attenuation_bounds (v : nat) :
  (1 <= v)%nat ->
  0 <= layer_attenuation (num_layers v) < 51 / 10 /\
  (num_layers v = 1%nat -> layer_attenuation (num_layers v) = 0).
Proof.
  intros Hv.
  pose proof (num_layers_pos v Hv) as H1.
  assert (H50 : (num_layers v <= 50)%nat) by (rewrite num_layers_isqrt; lia).
  unfold layer_attenuation. split.
  - assert (Hlo : 0 <= log10 (INR (num_layers v))).
    { destruct (Nat.eq_dec (num_layers v) 1) as [->|Hne];
        [simpl; rewrite log10_1; lra|].
      rewrite <- log10_1. left. apply log10_increasing; [lra|].
      change 1 with (INR 1). apply lt_INR. lia. }
    assert (Hhi : log10 (INR (num_layers v)) <= log10 50).
    { destruct (Nat.eq_dec (num_layers v) 50) as [->|Hne].
      - rewrite INR_IZR_INZ. simpl. lra.
      - left. apply log10_increasing; [apply lt_0_INR; lia|].
        replace 50 with (INR 50) by (rewrite INR_IZR_INZ; reflexivity).
        apply lt_INR. lia. }
    pose proof log10_50. lra.
  - intros ->. simpl. rewrite log10_1. lra.
Qed.

Lemma layer_attenuation_bounds_witness :
  (1 <= 100)%nat /\ 0 <= layer_attenuation (num_layers 100) < 51 / 10.
Proof.
  assert (H : (1 <= 100)%nat) by lia.
  split; [exact H | apply (proj1 (layer_attenuation_bounds 100 H))].
Defined.

Lemma crowd_or_silence_extent base count g :
  (len base <= len (fst (crowd_or_silence base count g)) <= len base + 30)%nat.
Proof.
  destruct (Z.lt_ge_cases 0 count) as [H|H].
  - rewrite crowd_or_silence_len by exact H.
    pose proof (randint_range 0 30 g ltac:(lia)). lia.
  - destruct (crowd_or_silence_nonpositive base count g ltac:(lia)) as [E _].
    rewrite E. cbn [fst]. rewrite len_silent. lia.
Qed.

(** X18.  The durations of the three outputs of a population: each
    crowd exported on its own lasts as long as its base utterance or up
    to 30 time units longer, and the mix lasts at least as long as the
    longer base and at most 30 time units longer than it. *)
Theorem population_durations (index : nat) (population : string)
    (agree_base disagree_base : AudioSegment) (agree disagree : Z) (w : World) :
  exists (w' : World) (agree_crowd disagree_crowd both : AudioSegment),
    population_outputs index population agree_base disagree_base
                       agree disagree w = Return tt w' /\
    exported w'
    = (exported w ++
       [(output_file index (population ++ "_agree"), agree_crowd);
        (output_file index (population ++ "_disagree"), disagree_crowd);
        (output_file index (population ++ "_both"), both)])%list /\
    (len agree_base <= len agree_crowd <= len agree_base + 30)%nat /\
    (len disagree_base <= len disagree_crowd <= len disagree_base + 30)%nat /\
    (Nat.max (len agree_base) (len disagree_base) <= len both
       <= Nat.max (len agree_base) (len disagree_base) + 30)%nat.
Proof.
  eexists. eexists. eexists. eexists.
  split; [apply population_outputs_result|].
  rewrite population_result_fields. cbv zeta. cbn [exported].
  split; [reflexivity|].
  split; [apply crowd_or_silence_extent|].
  split; [apply crowd_or_silence_extent|].
  rewrite len_mix.
  match goal with
  | |- (_ <= Nat.max (len (fst (crowd_or_silence _ _ ?g1)))
                     (len (fst (crowd_or_silence _ _ ?g2))) <= _)%nat =>
      pose proof (crowd_or_silence_extent agree_base agree g1);
      pose proof (crowd_or_silence_extent disagree_base disagree g2)
  end.
  lia.
Qed.
